(** * Batched vehicles of sdriving.tsim.vehicle

    A shallow embedding of [src/sdriving/tsim/vehicle.py]: the tensor
    operations the class uses (slicing, [cat], [view], [repeat],
    broadcasting, reductions), the class [_BatchedVehicle] with its mutable
    attributes as a record threaded through a state-and-exception monad,
    and [safety_circle_overlap].

    Tensors are a shape with row-major data.  Strides, storage sharing
    between a slice and its base, devices and gradients are not modelled.
    Scalars are kept abstract (class [Scalar]) for everything that only
    moves data around, and instantiated with the real numbers where a
    statement is about values. *)

From Stdlib Require Import String.
From Stdlib Require Import List Arith PeanoNat Bool ZArith Lia.
From Stdlib Require Import Reals Lra.
Import ListNotations.
Local Open Scope nat_scope.

#[local] Arguments Nat.div _ _ : simpl never.
#[local] Arguments Nat.modulo _ _ : simpl never.

(* ================================================================== *)
(** * Tensors *)
(* ================================================================== *)

Module Tensor.

Record tensor (A : Type) : Type := mkT { shape : list nat; data : list A }.
Arguments mkT {A} _ _.
Arguments shape {A} _.
Arguments data {A} _.

(** Number of elements of a shape. *)
Definition numel (s : list nat) : nat := fold_right Nat.mul 1 s.

(** A tensor is well formed when it holds as many elements as its shape
    says; torch tensors always are. *)
Definition wf {A} (t : tensor A) : Prop := length (data t) = numel (shape t).

(** The value read at a position that does not exist; never reached on
    well-formed tensors. *)
Class Default (A : Type) : Type := dflt : A.

#[export] Instance Default_bool : Default bool := false.
#[export] Instance Default_Z : Default Z := 0%Z.

Definition gather {A} `{Default A} (l : list A) (n : nat) (ix : nat -> nat)
  : list A :=
  map (fun k => nth (ix k) l dflt) (seq 0 n).

(** A dimension [d] cuts a shape in three: the dimensions before it, its
    own extent, the dimensions after it. *)
Definition outer (d : nat) (s : list nat) : nat := numel (firstn d s).
Definition extent (d : nat) (s : list nat) : nat := nth d s 0.
Definition inner (d : nat) (s : list nat) : nat := numel (skipn (S d) s).

(** Where position [k] of a result reads in its source, when the result
    keeps, of every run of [full] source elements, the [blk] ones that
    start at offset [lo]. *)
Definition slice_index (blk full lo k : nat) : nat :=
  (k / blk) * full + lo + k mod blk.

(** [t.size(d)]; raises when [t] has no dimension [d]. *)
Definition size {A} (d : nat) (t : tensor A) : option nat :=
  nth_error (shape t) d.

(** [t[..., a:b, ...]] with the slice on dimension [d] and full slices
    before it; [b = None] is the open slice [a:].  Bounds are clipped as
    Python clips them; indexing a dimension the tensor does not have
    raises. *)
Definition slice {A} `{Default A} (d a : nat) (b : option nat) (t : tensor A)
  : option (tensor A) :=
  let s := shape t in
  if d <? length s then
    let n := extent d s in
    let hi := match b with Some b => Nat.min b n | None => n end in
    let lo := Nat.min a hi in
    let len := hi - lo in
    let blk := len * inner d s in
    Some (mkT (firstn d s ++ len :: skipn (S d) s)
              (gather (data t) (outer d s * blk)
                 (slice_index blk (n * inner d s) (lo * inner d s))))
  else None.

(** [t[..., i, ...]] with an integer index on dimension [d]: the
    dimension disappears; an index out of range raises. *)
Definition select {A} `{Default A} (d i : nat) (t : tensor A)
  : option (tensor A) :=
  let s := shape t in
  if (d <? length s) && (i <? extent d s) then
    let inn := inner d s in
    Some (mkT (firstn d s ++ skipn (S d) s)
              (gather (data t) (outer d s * inn)
                 (slice_index inn (extent d s * inn) (i * inn))))
  else None.

(** [t.unsqueeze(d)]. *)
Definition unsqueeze {A} (d : nat) (t : tensor A) : option (tensor A) :=
  let s := shape t in
  if d <=? length s then Some (mkT (firstn d s ++ 1 :: skipn d s) (data t))
  else None.

Fixpoint shape_eqb (s1 s2 : list nat) : bool :=
  match s1, s2 with
  | [], [] => true
  | a :: s1', b :: s2' => (a =? b) && shape_eqb s1' s2'
  | _, _ => false
  end.

(** [torch.cat([t1, t2], dim=d)]: every dimension but [d] must agree.
    Of every run of [b1 + b2] result elements the first [b1] come from
    [t1], the others from [t2].  An operand of shape (0,), which
    [torch.cat] leaves out whatever the other operand is, is not covered:
    [cat] treats it like any other tensor of one dimension. *)
Definition cat_pick {A} `{Default A} (b1 b2 : nat) (l1 l2 : list A) (k : nat)
  : A :=
  let o := k / (b1 + b2) in
  let r := k mod (b1 + b2) in
  if r <? b1 then nth (o * b1 + r) l1 dflt
  else nth (o * b2 + (r - b1)) l2 dflt.

Definition cat {A} `{Default A} (d : nat) (t1 t2 : tensor A)
  : option (tensor A) :=
  let s1 := shape t1 in
  let s2 := shape t2 in
  if (d <? length s1) && (d <? length s2)
     && shape_eqb (firstn d s1) (firstn d s2)
     && shape_eqb (skipn (S d) s1) (skipn (S d) s2) then
    let b1 := extent d s1 * inner d s1 in
    let b2 := extent d s2 * inner d s1 in
    Some (mkT (firstn d s1 ++ (extent d s1 + extent d s2) :: skipn (S d) s1)
              (map (cat_pick b1 b2 (data t1) (data t2))
                   (seq 0 (outer d s1 * (b1 + b2)))))
  else None.

(** [t.view(...)]: the same data under another shape; [None] in the
    requested shape is the inferred dimension [-1]. *)
Definition known_size (spec : list (option nat)) : nat :=
  fold_right (fun o acc => match o with Some k => k * acc | None => acc end)
             1 spec.

Definition inferred (spec : list (option nat)) : nat :=
  length (filter (fun o => match o with None => true | Some _ => false end)
                 spec).

Definition view {A} (spec : list (option nat)) (t : tensor A)
  : option (tensor A) :=
  let n := numel (shape t) in
  let p := known_size spec in
  match inferred spec with
  | 0 => if p =? n
         then Some (mkT (map (fun o => match o with Some k => k | None => 0 end)
                             spec) (data t))
         else None
  | 1 => if (0 <? p) && (n mod p =? 0)
         then Some (mkT (map (fun o => match o with
                                       | Some k => k
                                       | None => n / p
                                       end) spec) (data t))
         else None
  | _ => None
  end.

(** Flat position <-> index per dimension, row major. *)
Fixpoint unravel (s : list nat) (k : nat) : list nat :=
  match s with
  | [] => []
  | _ :: ss => (k / numel ss) :: unravel ss (k mod numel ss)
  end.

Fixpoint ravel (s ix : list nat) : nat :=
  match s, ix with
  | _ :: ss, i :: ix' => i * numel ss + ravel ss ix'
  | _, _ => 0
  end.

(** A shape padded with leading 1s up to rank [r]. *)
Definition pad_shape (r : nat) (s : list nat) : list nat :=
  List.repeat 1 (r - length s) ++ s.

Definition map2 {X Y Z} (f : X -> Y -> Z) (l1 : list X) (l2 : list Y)
  : list Z :=
  map (fun p => f (fst p) (snd p)) (combine l1 l2).

(** [t.repeat(r0, r1, ...)]: the tensor tiled [ri] times along dimension
    [i]; fewer repeat counts than dimensions raises. *)
Definition repeat {A} `{Default A} (reps : list nat) (t : tensor A)
  : option (tensor A) :=
  if length (shape t) <=? length reps then
    let s := pad_shape (length reps) (shape t) in
    let out := map2 Nat.mul reps s in
    Some (mkT out
              (gather (data t) (numel out)
                 (fun k => ravel s (map2 Nat.modulo (unravel out k) s))))
  else None.

(** Broadcasting: shapes are aligned on the right; two extents are
    compatible when they are equal or one of them is 1. *)
Fixpoint bshape_aligned (s1 s2 : list nat) : option (list nat) :=
  match s1, s2 with
  | [], [] => Some []
  | a :: s1', b :: s2' =>
      match bshape_aligned s1' s2' with
      | Some r =>
          if a =? b then Some (a :: r)
          else if a =? 1 then Some (b :: r)
          else if b =? 1 then Some (a :: r)
          else None
      | None => None
      end
  | _, _ => None
  end.

Definition bshape (s1 s2 : list nat) : option (list nat) :=
  let r := Nat.max (length s1) (length s2) in
  bshape_aligned (pad_shape r s1) (pad_shape r s2).

(** Where position [k] of the broadcast result reads in a source of shape
    [src]. *)
Definition bindex (src out : list nat) (k : nat) : nat :=
  let s := pad_shape (length out) src in
  ravel s (map2 (fun i n => if n =? 1 then 0 else i) (unravel out k) s).

(** An elementwise binary operation with broadcasting; incompatible
    shapes raise. *)
Definition zip_with {A B C} `{Default A} `{Default B} (f : A -> B -> C)
  (t1 : tensor A) (t2 : tensor B) : option (tensor C) :=
  match bshape (shape t1) (shape t2) with
  | Some out =>
      Some (mkT out
                (map (fun k => f (nth (bindex (shape t1) out k) (data t1) dflt)
                                 (nth (bindex (shape t2) out k) (data t2) dflt))
                     (seq 0 (numel out))))
  | None => None
  end.

(** An elementwise unary operation, or an operation with a Python
    number. *)
Definition tmap {A B} (f : A -> B) (t : tensor A) : tensor B :=
  mkT (shape t) (map f (data t)).

(** A reduction ([sum], [any]) along dimension [d]. *)
Definition reduce {A B} `{Default A} (f : B -> A -> B) (init : B)
  (d : nat) (keepdim : bool) (t : tensor A) : option (tensor B) :=
  let s := shape t in
  if d <? length s then
    let n := extent d s in
    let inn := inner d s in
    Some (mkT (firstn d s ++ (if keepdim then [1] else []) ++ skipn (S d) s)
              (map (fun k =>
                      fold_left f
                        (gather (data t) n
                           (fun j => slice_index inn (n * inn) (j * inn) k))
                        init)
                   (seq 0 (outer d s * inn))))
  else None.

(** [torch.ones(n)] and [torch.diag] of a vector. *)
Definition ones {A} (one : A) (n : nat) : tensor A :=
  mkT [n] (List.repeat one n).

Definition diag {A} `{Default A} (zero : A) (v : tensor A)
  : option (tensor A) :=
  match shape v with
  | [n] =>
      Some (mkT [n; n]
                (map (fun k => if k / n =? k mod n
                               then nth (k / n) (data v) dflt else zero)
                     (seq 0 (n * n))))
  | _ => None
  end.

(** Reading one entry. *)
Definition at1 {A} `{Default A} (t : tensor A) (i : nat) : A :=
  nth i (data t) dflt.
Definition at2 {A} `{Default A} (t : tensor A) (i j : nat) : A :=
  nth (ravel (shape t) [i; j]) (data t) dflt.
Definition at3 {A} `{Default A} (t : tensor A) (i j k : nat) : A :=
  nth (ravel (shape t) [i; j; k]) (data t) dflt.

End Tensor.
Import Tensor.

(* ================================================================== *)
(** * Scalars and the helpers of sdriving.tsim.utils *)
(* ================================================================== *)

(** The float operations the module uses.  [of_Z] reads an integer
    constant; the other literals of the source are named. *)
Class Scalar (A : Type) : Type := {
  of_Z : Z -> A;
  lit_1_3 : A;          (* 1.3 *)
  lit_1em7 : A;         (* 1e-7 *)
  lit_1em5 : A;         (* 1e-5 *)
  math_pi : A;          (* math.pi *)
  fadd : A -> A -> A;
  fsub : A -> A -> A;
  fmul : A -> A -> A;
  fdiv : A -> A -> A;
  fsqrt : A -> A;
  fcos : A -> A;
  fsin : A -> A;
  facos : A -> A;
  fltb : A -> A -> bool
}.

#[export] Instance Default_Scalar {A} `{S : Scalar A} : Default A :=
  @of_Z A S 0%Z.

(** [x.clamp(lo, hi)] on one element. *)
Definition clamp {A} `{Scalar A} (lo hi x : A) : A :=
  if fltb x lo then lo else if fltb hi x then hi else x.

(** The four functions imported from [sdriving.tsim.utils], whose source
    is not part of [vehicle.py]: parameters of the class below. *)
Class Utils (A : Type) : Type := {
  angle_normalize : tensor A -> option (tensor A);
  transform_2d_coordinates :
    tensor A -> tensor A -> tensor A -> option (tensor A);
  check_intersection_lines :
    tensor A -> tensor A -> tensor A -> tensor A -> option (tensor bool);
  circle_area_overlap :
    tensor A -> tensor A -> tensor A -> tensor A -> option (tensor A)
}.

(* ================================================================== *)
(** * The class _BatchedVehicle *)
(* ================================================================== *)

Section Vehicle.

Context {A : Type} `{Scalar A} `{Utils A}.

(** The attributes of an instance ([device] is left out). *)
Record fleet : Type := mkFleet {
  name : list string;
  position : tensor A;
  orientation : tensor A;
  destination : tensor A;
  dest_orientation : tensor A;
  dimensions : tensor A;
  nbatch : nat;
  diag_bool_buffer : tensor bool;
  speed : tensor A;
  safety_circle : tensor A;
  area : tensor A;
  base_coordinates : tensor A;
  cached_coordinates : bool;
  coordinates : tensor A;
  max_lidar_range : A;
  min_lidar_range : A;
  vision_range : A
}.

Definition set_position (v : tensor A) (f : fleet) : fleet :=
  mkFleet (name f) v (orientation f) (destination f) (dest_orientation f)
    (dimensions f) (nbatch f) (diag_bool_buffer f) (speed f)
    (safety_circle f) (area f) (base_coordinates f) (cached_coordinates f)
    (coordinates f) (max_lidar_range f) (min_lidar_range f) (vision_range f).

Definition set_orientation (v : tensor A) (f : fleet) : fleet :=
  mkFleet (name f) (position f) v (destination f) (dest_orientation f)
    (dimensions f) (nbatch f) (diag_bool_buffer f) (speed f)
    (safety_circle f) (area f) (base_coordinates f) (cached_coordinates f)
    (coordinates f) (max_lidar_range f) (min_lidar_range f) (vision_range f).

Definition set_speed (v : tensor A) (f : fleet) : fleet :=
  mkFleet (name f) (position f) (orientation f) (destination f)
    (dest_orientation f) (dimensions f) (nbatch f) (diag_bool_buffer f) v
    (safety_circle f) (area f) (base_coordinates f) (cached_coordinates f)
    (coordinates f) (max_lidar_range f) (min_lidar_range f) (vision_range f).

Definition set_cached_coordinates (v : bool) (f : fleet) : fleet :=
  mkFleet (name f) (position f) (orientation f) (destination f)
    (dest_orientation f) (dimensions f) (nbatch f) (diag_bool_buffer f)
    (speed f) (safety_circle f) (area f) (base_coordinates f) v
    (coordinates f) (max_lidar_range f) (min_lidar_range f) (vision_range f).

Definition set_coordinates (v : tensor A) (f : fleet) : fleet :=
  mkFleet (name f) (position f) (orientation f) (destination f)
    (dest_orientation f) (dimensions f) (nbatch f) (diag_bool_buffer f)
    (speed f) (safety_circle f) (area f) (base_coordinates f)
    (cached_coordinates f) v (max_lidar_range f) (min_lidar_range f)
    (vision_range f).

(** A method runs on [self] and either returns a value or raises; the
    attributes it assigned before raising stay assigned. *)
Definition M (X : Type) : Type := fleet -> option X * fleet.

Definition ret {X} (x : X) : M X := fun self => (Some x, self).

Definition bind {X Y} (m : M X) (k : X -> M Y) : M Y :=
  fun self =>
    match m self with
    | (Some x, self') => k x self'
    | (None, self') => (None, self')
    end.

(** The result of a tensor operation that may raise. *)
Definition lift {X} (o : option X) : M X := fun self => (o, self).

Definition read {X} (g : fleet -> X) : M X := fun self => (Some (g self), self).

Definition assign (set : fleet -> fleet) : M unit :=
  fun self => (Some tt, set self).

Notation "x <- m ;; k" := (bind m (fun x => k))
  (at level 61, m at next level, right associativity).
Notation "m ;;; k" := (bind m (fun _ => k))
  (at level 61, right associativity).

(** [t[:, None, :]]: two slices need two dimensions. *)
Definition index_none_1 (t : tensor A) : option (tensor A) :=
  if 2 <=? length (shape t) then unsqueeze 1 t else None.

Definition _get_coordinates : M (tensor A) :=
  assign (set_cached_coordinates true) ;;;
  base <- read base_coordinates ;;
  o <- read orientation ;;
  p <- read position ;;
  theta <- lift (select 1 0 o) ;;
  offset <- lift (index_none_1 p) ;;
  lift (transform_2d_coordinates base theta offset).

Definition get_coordinates : M (tensor A) :=
  cached <- read cached_coordinates ;;
  if cached then read coordinates else _get_coordinates.

Definition get_edges : M (tensor A * tensor A) :=
  coords <- get_coordinates ;;
  let pt1 := coords in
  a <- lift (slice 2 1 None coords) ;;
  b <- lift (slice 2 0 (Some 1) coords) ;;
  pt2 <- lift (cat 1 a b) ;;
  ret (pt1, pt2).

Definition update_state (state : tensor A) : M unit :=
  p <- lift (slice 1 0 (Some 2) state) ;;
  assign (set_position p) ;;;
  s <- lift (slice 1 2 (Some 3) state) ;;
  assign (set_speed s) ;;;
  o <- lift (slice 1 3 (Some 4) state) ;;
  assign (set_orientation o) ;;;
  assign (set_cached_coordinates false).

Definition get_state : M (tensor A) :=
  p <- read position ;;
  s <- read speed ;;
  o <- read orientation ;;
  ps <- lift (cat (length (shape p) - 1) p s) ;;
  lift (cat (length (shape ps) - 1) ps o).

Definition distance_from_point (point : tensor A) : M (tensor A) :=
  p <- read position ;;
  diff <- lift (zip_with fsub p point) ;;
  sq <- lift (reduce fadd (of_Z 0) 1 true (tmap (fun x => fmul x x) diff)) ;;
  ret (tmap fsqrt sq).

Definition distance_from_destination : M (tensor A) :=
  d <- read destination ;;
  distance_from_point d.

(** [torch.norm(v, dim=1)]. *)
Definition norm_dim1 (v : tensor A) : option (tensor A) :=
  option_map (tmap fsqrt)
             (reduce fadd (of_Z 0) 1 false (tmap (fun x => fmul x x) v)).

Definition optimal_heading_to_point (point : tensor A) : M (tensor A) :=
  p <- read position ;;
  vec <- lift (zip_with fsub point p) ;;
  n <- lift (norm_dim1 vec) ;;
  vec <- lift (zip_with fdiv vec (tmap (fun x => fadd x lit_1em7) n)) ;;
  o <- read orientation ;;
  cur_vec <- lift (cat 0 (tmap fcos o) (tmap fsin o)) ;;
  prod <- lift (zip_with fmul vec cur_vec) ;;
  dot <- lift (reduce fadd (of_Z 0) 1 true prod) ;;
  lift (angle_normalize
          (tmap facos
                (tmap (clamp (fadd (of_Z (-1)) lit_1em5)
                             (fsub (of_Z 1) lit_1em5)) dot))).

Definition optimal_heading : M (tensor A) :=
  d <- read destination ;;
  optimal_heading_to_point d.

Definition collision_check : M (tensor bool) :=
  e <- get_edges ;;
  p1 <- lift (view [None; Some 2] (fst e)) ;;
  p2 <- lift (view [None; Some 2] (snd e)) ;;
  x <- lift (check_intersection_lines p1 p2 p1 p2) ;;
  mask <- read diag_bool_buffer ;;
  c <- lift (zip_with andb x mask) ;;
  n <- read nbatch ;;
  v <- lift (view [Some n; Some 4; None] c) ;;
  r <- lift (reduce orb false 1 false v) ;;
  lift (reduce orb false 1 false r).

(** [~torch.diag(torch.ones(n)).bool()].  The float matrix holds only
    0.0 and 1.0, which the integers 0 and 1 stand for. *)
Definition not_diag_ones (n : nat) : option (tensor bool) :=
  option_map (tmap (fun z => negb (negb (Z.eqb z 0))))
             (diag 0%Z (ones 1%Z n)).

(** [torch.as_tensor([[1, 1], [1, -1], [-1, -1], [-1, 1]]).unsqueeze(0)
    .type_as(dimensions)]. *)
Definition mul_factor : tensor A :=
  mkT [1; 4; 2] (map of_Z [1; 1; 1; -1; -1; -1; -1; 1]%Z).

(** [__init__]: the constructor, which returns the new instance or
    raises. *)
Definition __init__ (position0 orientation0 destination0 dest_orientation0
                     dimensions0 initial_speed : tensor A)
  (name0 : list string) (min_lidar_range0 max_lidar_range0 vision_range0 : A)
  : option fleet :=
  match angle_normalize orientation0 with None => None | Some o =>
  match angle_normalize dest_orientation0 with None => None | Some d_o =>
  match size 0 position0 with None => None | Some n =>
  match not_diag_ones (n * 4) with None => None | Some buffer =>
  match reduce fadd (of_Z 0) 1 true
          (tmap (fun x => fmul x x)
                (tmap (fun x => fdiv x (of_Z 2)) dimensions0)) with
  | None => None | Some sq =>
  let circle := tmap (fun x => fmul lit_1_3 (fsqrt x)) sq in
  let area0 := tmap (fun r => fmul math_pi (fmul r r)) circle in
  match unsqueeze 1 dimensions0 with None => None | Some du =>
  match zip_with fmul mul_factor du with None => None | Some prod =>
  let base := tmap (fun x => fdiv x (of_Z 2)) prod in
  let self :=
    mkFleet name0 position0 o destination0 d_o dimensions0 n buffer
            initial_speed circle area0 base false (mkT [] [])
            max_lidar_range0 min_lidar_range0 vision_range0 in
  match _get_coordinates self with
  | (Some c, self') => Some (set_coordinates c self')
  | (None, _) => None
  end end end end end end end end.

(** [safety_circle_overlap(obj1, obj2)]: reads two instances. *)
Definition safety_circle_overlap (obj1 obj2 : fleet) : option (tensor A) :=
  match repeat [nbatch obj2; 1] (position obj1) with None => None
  | Some center1 =>
  match unsqueeze 0 (position obj2) with None => None | Some u2 =>
  match repeat [nbatch obj1; 1; 1] u2 with None => None | Some r2 =>
  match view [None; Some 2] r2 with None => None | Some center2 =>
  match repeat [nbatch obj2; 1] (safety_circle obj1) with None => None
  | Some radius1 =>
  match unsqueeze 0 (safety_circle obj2) with None => None | Some v2 =>
  match repeat [nbatch obj1; 1; 1] v2 with None => None | Some w2 =>
  match view [None; Some 1] w2 with None => None | Some radius2 =>
  match circle_area_overlap center1 center2 radius1 radius2 with
  | None => None
  | Some r => view [Some (nbatch obj1); Some (nbatch obj2)] r
  end end end end end end end end end.

(** [_Vehicle.__init__]: one vehicle is a fleet of batch size 1. *)
Definition _Vehicle (position0 orientation0 destination0 dest_orientation0
                     dimensions0 initial_speed : tensor A)
  (name0 : string) (min_lidar_range0 max_lidar_range0 vision_range0 : A)
  : option fleet :=
  match unsqueeze 0 position0, unsqueeze 0 orientation0,
        unsqueeze 0 destination0, unsqueeze 0 dest_orientation0,
        unsqueeze 0 dimensions0, unsqueeze 0 initial_speed with
  | Some p, Some o, Some d, Some d_o, Some dims, Some s =>
      __init__ p o d d_o dims s [name0]
               min_lidar_range0 max_lidar_range0 vision_range0
  | _, _, _, _, _, _ => None
  end.

End Vehicle.

(* ================================================================== *)
(** * Real-number scalars and the helpers as the specification
      describes them *)
(* ================================================================== *)

Module RealModel.

Local Open Scope R_scope.

Definition Rltb (x y : R) : bool := if Rlt_dec x y then true else false.

(** The scalars read as real numbers.  The arithmetic is exact: the
    rounding, overflow and underflow of the floats of the source have no
    counterpart here. *)
#[export] Instance Scalar_R : Scalar R := {|
  of_Z := IZR;
  lit_1_3 := 13 / 10;
  lit_1em7 := 1 / 10000000;
  lit_1em5 := 1 / 100000;
  math_pi := PI;
  fadd := Rplus;
  fsub := Rminus;
  fmul := Rmult;
  fdiv := Rdiv;
  fsqrt := sqrt;
  fcos := cos;
  fsin := sin;
  facos := acos;
  fltb := Rltb
|}.

(** An angle lies in the half-open turn (-pi, pi]. *)
Definition in_half_open_turn (x : R) : Prop := - PI < x <= PI.

(** Modelled from the spec: [angle_normalize] of sdriving.tsim.utils
    ("normalized to (-pi, pi]"): on each element, the angle that differs
    from it by a whole number of turns and lies in (-pi, pi]. *)
Definition normalize_angle (x : R) : R :=
  x - 2 * PI * IZR (1 - up (- ((x - PI) / (2 * PI)))).

Definition angle_normalize_spec (t : tensor R) : option (tensor R) :=
  Some (tmap normalize_angle t).

(** Modelled from the spec: [transform_2d_coordinates] of
    sdriving.tsim.utils (CoordinateTransform): "world corners = rotate
    each local offset by the vehicle's orientation (standard 2D rotation
    matrix application), then translate by position", batched over the
    vehicles: local offsets n x m x 2, one angle per vehicle, one
    position per vehicle (n x 1 x 2). *)
Definition rotate_translate (x y theta ox oy : R) : R * R :=
  (x * cos theta - y * sin theta + ox, x * sin theta + y * cos theta + oy).

Definition transform_2d_coordinates_spec (c theta offset : tensor R)
  : option (tensor R) :=
  match shape c, shape theta, shape offset with
  | [n; m; 2%nat], [n1], [n2; 1%nat; 2%nat] =>
      if ((n =? n1) && (n =? n2))%nat then
        Some (mkT [n; m; 2%nat]
                  (map (fun k =>
                          let v := (k / (m * 2))%nat in
                          let p := ((k / 2) mod m)%nat in
                          let w := rotate_translate
                                     (at3 c v p 0) (at3 c v p 1)
                                     (at1 theta v)
                                     (at3 offset v 0 0) (at3 offset v 0 1) in
                          if (k mod 2 =? 0)%nat then fst w else snd w)
                       (seq 0 (n * m * 2))))
      else None
  | _, _, _ => None
  end.

(** Modelled from the spec: [check_intersection_lines] of
    sdriving.tsim.utils (SegmentIntersection), all-pairs mode: "segments
    intersect iff the endpoints of each straddle the line of the other
    (opposite orientation signs on both sides)", with strict sign
    comparisons; M segments against M segments give an M x M boolean
    matrix. *)
Definition orient (ax ay bx by_ cx cy : R) : R :=
  (bx - ax) * (cy - ay) - (by_ - ay) * (cx - ax).

Definition opposite_signs (u v : R) : bool :=
  (Rltb u 0 && Rltb 0 v) || (Rltb v 0 && Rltb 0 u).

Definition segments_intersect (a1x a1y a2x a2y b1x b1y b2x b2y : R) : bool :=
  opposite_signs (orient a1x a1y a2x a2y b1x b1y)
                 (orient a1x a1y a2x a2y b2x b2y)
  && opposite_signs (orient b1x b1y b2x b2y a1x a1y)
                    (orient b1x b1y b2x b2y a2x a2y).

(** Segment [i] of the flattened edge lists: from row [i] of [p1] to row
    [i] of [p2]. *)
Definition edges_intersect (p1 p2 q1 q2 : tensor R) (i j : nat) : bool :=
  segments_intersect (at2 p1 i 0) (at2 p1 i 1) (at2 p2 i 0) (at2 p2 i 1)
                     (at2 q1 j 0) (at2 q1 j 1) (at2 q2 j 0) (at2 q2 j 1).

Definition check_intersection_lines_spec (p1 p2 q1 q2 : tensor R)
  : option (tensor bool) :=
  match shape p1, shape p2, shape q1, shape q2 with
  | [m; 2%nat], [m2; 2%nat], [m3; 2%nat], [m4; 2%nat] =>
      if ((m =? m2) && (m =? m3) && (m =? m4))%nat then
        Some (mkT [m; m]
                  (map (fun k => edges_intersect p1 p2 q1 q2
                                   (k / m)%nat (k mod m)%nat)
                       (seq 0 (m * m))))
      else None
  | _, _, _, _ => None
  end.

(** Modelled from the spec: [circle_area_overlap] of sdriving.tsim.utils
    (CircleOverlapArea): zero when the circles are disjoint or externally
    tangent, the smaller disc when one circle contains the other, and
    otherwise the two circular segments found from the half-angles that the
    law of cosines gives, with the arguments of the inverse cosine clamped
    to [-1, 1]; row by row on M centres and M radii. *)
Definition clamp_unit (x : R) : R := Rmax (-1) (Rmin 1 x).

Definition circular_segment (r half_angle : R) : R :=
  r * r * (half_angle - sin half_angle * cos half_angle).

Definition overlap_area (d r1 r2 : R) : R :=
  if Rle_dec (r1 + r2) d then 0
  else if Rle_dec d (Rabs (r1 - r2)) then PI * (Rmin r1 r2 * Rmin r1 r2)
  else
    circular_segment r1
      (acos (clamp_unit ((d * d + r1 * r1 - r2 * r2) / (2 * d * r1))))
    + circular_segment r2
        (acos (clamp_unit ((d * d + r2 * r2 - r1 * r1) / (2 * d * r2)))).

Definition centre_distance (x1 y1 x2 y2 : R) : R :=
  sqrt ((x1 - x2) * (x1 - x2) + (y1 - y2) * (y1 - y2)).

Definition circle_area_overlap_spec (c1 c2 r1 r2 : tensor R)
  : option (tensor R) :=
  match shape c1, shape c2, shape r1, shape r2 with
  | [m; 2%nat], [m2; 2%nat], [m3; 1%nat], [m4; 1%nat] =>
      if ((m =? m2) && (m =? m3) && (m =? m4))%nat then
        Some (mkT [m; 1%nat]
                  (map (fun k =>
                          overlap_area
                            (centre_distance (at2 c1 k 0) (at2 c1 k 1)
                                             (at2 c2 k 0) (at2 c2 k 1))
                            (at2 r1 k 0) (at2 r2 k 0))
                       (seq 0 m)))
      else None
  | _, _, _, _ => None
  end.

#[export] Instance Utils_R : Utils R := {|
  angle_normalize := angle_normalize_spec;
  transform_2d_coordinates := transform_2d_coordinates_spec;
  check_intersection_lines := check_intersection_lines_spec;
  circle_area_overlap := circle_area_overlap_spec
|}.

End RealModel.

(* ================================================================== *)
(** * Concrete fleets *)
(* ================================================================== *)

Module Inputs.
Import RealModel.
Local Open Scope R_scope.

(** One 4 x 2 vehicle at the origin, heading 0, as [__init__] leaves it. *)
Definition parked_car : fleet :=
  {| name := ["car"%string];
     position := mkT [1; 2]%nat [0; 0];
     orientation := mkT [1; 1]%nat [0];
     destination := mkT [1; 2]%nat [10; 0];
     dest_orientation := mkT [1; 1]%nat [0];
     dimensions := mkT [1; 2]%nat [4; 2];
     nbatch := 1;
     diag_bool_buffer :=
       mkT [4; 4]%nat
           [false; true; true; true; true; false; true; true;
            true; true; false; true; true; true; true; false];
     speed := mkT [1; 1]%nat [0];
     safety_circle := mkT [1; 1]%nat [13 / 10 * sqrt 5];
     area := mkT [1; 1]%nat [PI * (13 / 10 * sqrt 5 * (13 / 10 * sqrt 5))];
     base_coordinates := mkT [1; 4; 2]%nat [2; 1; 2; -1; -2; -1; -2; 1];
     cached_coordinates := true;
     coordinates := mkT [1; 4; 2]%nat [2; 1; 2; -1; -2; -1; -2; 1];
     max_lidar_range := 50;
     min_lidar_range := 5 / 2;
     vision_range := 50 |}.

Definition parked_car_built : option fleet :=
  __init__ (mkT [1; 2]%nat [0; 0]) (mkT [1; 1]%nat [0])
           (mkT [1; 2]%nat [10; 0]) (mkT [1; 1]%nat [0])
           (mkT [1; 2]%nat [4; 2]) (mkT [1; 1]%nat [0])
           ["car"%string] (5 / 2) 50 50.

(** Two 6 x 8 vehicles, 100 apart, both heading 0. *)
Definition two_cars : fleet :=
  {| name := ["car"%string; "car"%string];
     position := mkT [2; 2]%nat [0; 0; 100; 0];
     orientation := mkT [2; 1]%nat [0; 0];
     destination := mkT [2; 2]%nat [10; 0; 110; 0];
     dest_orientation := mkT [2; 1]%nat [0; 0];
     dimensions := mkT [2; 2]%nat [6; 8; 6; 8];
     nbatch := 2;
     diag_bool_buffer :=
       mkT [8; 8]%nat
           (map (fun k => negb (k / 8 =? k mod 8)%nat) (seq 0 64));
     speed := mkT [2; 1]%nat [0; 0];
     safety_circle := mkT [2; 1]%nat [13 / 2; 13 / 2];
     area := mkT [2; 1]%nat [PI * (13 / 2 * (13 / 2)); PI * (13 / 2 * (13 / 2))];
     base_coordinates :=
       mkT [2; 4; 2]%nat
           [3; 4; 3; -4; -3; -4; -3; 4; 3; 4; 3; -4; -3; -4; -3; 4];
     cached_coordinates := true;
     coordinates :=
       mkT [2; 4; 2]%nat
           [3; 4; 3; -4; -3; -4; -3; 4; 103; 4; 103; -4; 97; -4; 97; 4];
     max_lidar_range := 50;
     min_lidar_range := 5 / 2;
     vision_range := 50 |}.

Definition two_cars_built : option fleet :=
  __init__ (mkT [2; 2]%nat [0; 0; 100; 0]) (mkT [2; 1]%nat [0; 0])
           (mkT [2; 2]%nat [10; 0; 110; 0]) (mkT [2; 1]%nat [0; 0])
           (mkT [2; 2]%nat [6; 8; 6; 8]) (mkT [2; 1]%nat [0; 0])
           ["car"%string; "car"%string] (5 / 2) 50 50.

(** Two 4 x 2 vehicles at (0, 0) and (20, 0), both heading 0. *)
Definition distant_cars : fleet :=
  {| name := ["car"%string; "car"%string];
     position := mkT [2; 2]%nat [0; 0; 20; 0];
     orientation := mkT [2; 1]%nat [0; 0];
     destination := mkT [2; 2]%nat [10; 0; 30; 0];
     dest_orientation := mkT [2; 1]%nat [0; 0];
     dimensions := mkT [2; 2]%nat [4; 2; 4; 2];
     nbatch := 2;
     diag_bool_buffer :=
       mkT [8; 8]%nat
           (map (fun k => negb (k / 8 =? k mod 8)%nat) (seq 0 64));
     speed := mkT [2; 1]%nat [0; 0];
     safety_circle := mkT [2; 1]%nat [13 / 10 * sqrt 5; 13 / 10 * sqrt 5];
     area :=
       mkT [2; 1]%nat
           [PI * (13 / 10 * sqrt 5 * (13 / 10 * sqrt 5));
            PI * (13 / 10 * sqrt 5 * (13 / 10 * sqrt 5))];
     base_coordinates :=
       mkT [2; 4; 2]%nat
           [2; 1; 2; -1; -2; -1; -2; 1; 2; 1; 2; -1; -2; -1; -2; 1];
     cached_coordinates := true;
     coordinates :=
       mkT [2; 4; 2]%nat
           [2; 1; 2; -1; -2; -1; -2; 1; 22; 1; 22; -1; 18; -1; 18; 1];
     max_lidar_range := 50;
     min_lidar_range := 5 / 2;
     vision_range := 50 |}.

Definition distant_cars_built : option fleet :=
  __init__ (mkT [2; 2]%nat [0; 0; 20; 0]) (mkT [2; 1]%nat [0; 0])
           (mkT [2; 2]%nat [10; 0; 30; 0]) (mkT [2; 1]%nat [0; 0])
           (mkT [2; 2]%nat [4; 2; 4; 2]) (mkT [2; 1]%nat [0; 0])
           ["car"%string; "car"%string] (5 / 2) 50 50.

End Inputs.
(* ================================================================== *)
(** * The tensor operations on small inputs *)
(* ================================================================== *)

Example slice_column :
  slice 1 2 (Some 3) (mkT [2; 4] [1; 2; 3; 4; 5; 6; 7; 8]%Z)
  = Some (mkT [2; 1] [3; 7]%Z).
Proof. reflexivity. Qed.

Example cat_along_rows :
  cat 0 (mkT [1; 2] [1; 2]%Z) (mkT [2; 2] [3; 4; 5; 6]%Z)
  = Some (mkT [3; 2] [1; 2; 3; 4; 5; 6]%Z).
Proof. reflexivity. Qed.

Example repeat_tiles_rows :
  repeat [2; 1] (mkT [2; 2] [1; 2; 3; 4]%Z)
  = Some (mkT [4; 2] [1; 2; 3; 4; 1; 2; 3; 4]%Z).
Proof. reflexivity. Qed.

Example broadcast_row_col :
  zip_with Z.mul (mkT [1; 2] [2; 3]%Z) (mkT [2; 1] [5; 7]%Z)
  = Some (mkT [2; 2] [10; 15; 14; 21]%Z).
Proof. reflexivity. Qed.

Example broadcast_mismatch :
  zip_with Z.mul (mkT [3; 2] [1; 2; 3; 4; 5; 6]%Z) (mkT [3] [1; 2; 3]%Z)
  = None.
Proof. reflexivity. Qed.

Example sum_rows :
  reduce Z.add 0%Z 1 true (mkT [2; 2] [1; 2; 3; 4]%Z)
  = Some (mkT [2; 1] [3; 7]%Z).
Proof. reflexivity. Qed.

(* ================================================================== *)

(* ================================================================== *)
(** * Facts about the tensor operations *)
(* ================================================================== *)

Section TensorFacts.

Lemma nth_map_seq {X} (g : nat -> X) (n k : nat) (d : X) :
  k < n -> nth k (map g (seq 0 n)) d = g k.
Proof.
  intros Hk.
  rewrite (nth_indep _ d (g 0)) by (rewrite length_map, length_seq; exact Hk).
  rewrite (map_nth g (seq 0 n) 0 k), seq_nth by exact Hk.
  reflexivity.
Qed.

Lemma div_mod_lin (q m r : nat) :
  r < m -> (q * m + r) / m = q /\ (q * m + r) mod m = r.
Proof.
  intros Hr. split.
  - rewrite Nat.div_add_l by lia. rewrite Nat.div_small by exact Hr. lia.
  - rewrite Nat.add_comm, Nat.Div0.mod_add. apply Nat.mod_small; exact Hr.
Qed.

Lemma fold_orb_exists (g : nat -> bool) (n : nat) :
  fold_left orb (map g (seq 0 n)) false = true
  <-> exists j, j < n /\ g j = true.
Proof.
  induction n as [|n IH].
  - simpl. split; [discriminate | intros [j [Hj _]]; lia].
  - rewrite seq_S, map_app, fold_left_app. simpl.
    destruct (fold_left orb (map g (seq 0 n)) false) eqn:E; simpl.
    + split; [intros _ | reflexivity].
      destruct (proj1 IH eq_refl) as [j [Hj Hg]]. exists j. split; [lia | exact Hg].
    + split.
      * intros Hg. exists n. split; [lia | exact Hg].
      * intros [j [Hj Hg]]. destruct (Nat.eq_dec j n) as [->|Hne]; [exact Hg|].
        assert (Hf : false = true) by (apply IH; exists j; split; [lia | exact Hg]).
        discriminate.
Qed.

Lemma nth_gather {X} `{Default X} (l : list X) (n : nat) (ix : nat -> nat)
  (k : nat) (d : X) :
  k < n -> nth k (gather l n ix) d = nth (ix k) l dflt.
Proof.
  intros Hk. unfold gather.
  exact (nth_map_seq (fun j => nth (ix j) l dflt) n k d Hk).
Qed.

Lemma slice_index_lin (blk full lo q r : nat) :
  r < blk -> slice_index blk full lo (q * blk + r) = q * full + lo + r.
Proof.
  intros Hr. unfold slice_index.
  destruct (div_mod_lin q blk r Hr) as [-> ->]. reflexivity.
Qed.

Lemma cat_pick_left {X} `{Default X} (b1 b2 : nat) (l1 l2 : list X)
  (q r : nat) :
  r < b1 ->
  cat_pick b1 b2 l1 l2 (q * (b1 + b2) + r) = nth (q * b1 + r) l1 dflt.
Proof.
  intros Hr. unfold cat_pick.
  destruct (div_mod_lin q (b1 + b2) r ltac:(lia)) as [-> ->].
  apply Nat.ltb_lt in Hr. rewrite Hr. reflexivity.
Qed.

Lemma cat_pick_right {X} `{Default X} (b1 b2 : nat) (l1 l2 : list X)
  (q r : nat) :
  r < b2 ->
  cat_pick b1 b2 l1 l2 (q * (b1 + b2) + (b1 + r)) = nth (q * b2 + r) l2 dflt.
Proof.
  intros Hr. unfold cat_pick.
  destruct (div_mod_lin q (b1 + b2) (b1 + r) ltac:(lia)) as [-> ->].
  assert (Hn : (b1 + r <? b1) = false) by (apply Nat.ltb_ge; lia).
  rewrite Hn. f_equal. lia.
Qed.

End TensorFacts.

#[local] Arguments gather : simpl never.
#[local] Arguments slice_index : simpl never.
#[local] Arguments cat_pick : simpl never.

(** Rewrites the position read on the left of the goal. *)
Ltac reindex e :=
  match goal with
  | |- nth ?k _ _ = _ => replace k with e by (cbn; lia)
  end.

(* ================================================================== *)
(** * update_state *)
(* ================================================================== *)

Section StateFacts.
Context {A : Type} `{Scalar A} `{Utils A}.

Lemma slice_cols (s : tensor A) (m k a b : nat) :
  shape s = [m; k] -> a <= b -> b <= k ->
  slice 1 a (Some b) s
  = Some (mkT [m; b - a]
              (gather (data s) (m * (b - a)) (slice_index (b - a) k a))).
Proof.
  intros Hs Hab Hbk. unfold slice, outer, inner, extent, numel.
  rewrite Hs. cbn.
  rewrite (Nat.min_l b k) by exact Hbk. rewrite (Nat.min_l a b) by exact Hab.
  rewrite !Nat.mul_1_r. reflexivity.
Qed.

Lemma at2_rows (t : tensor A) (m k v c : nat) :
  shape t = [m; k] -> at2 t v c = nth (v * k + c) (data t) dflt.
Proof.
  intros Hs. unfold at2. rewrite Hs. cbn. f_equal. lia.
Qed.

Lemma at2_slice_cols (s : tensor A) (m k a w v c : nat) :
  shape s = [m; k] -> v < m -> c < w ->
  at2 (mkT [m; w] (gather (data s) (m * w) (slice_index w k a))) v c
  = at2 s v (a + c).
Proof.
  intros Hs Hv Hc.
  rewrite (at2_rows _ m w) by reflexivity. rewrite (at2_rows s m k) by exact Hs.
  cbn [data]. rewrite nth_gather by nia.
  rewrite slice_index_lin by exact Hc. f_equal. lia.
Qed.

Lemma gather_slice_ext (l1 l2 : list A) (m w k1 k2 a : nat) :
  (forall v c, v < m -> c < w ->
     nth (v * k1 + a + c) l1 dflt = nth (v * k2 + a + c) l2 dflt) ->
  gather l1 (m * w) (slice_index w k1 a)
  = gather l2 (m * w) (slice_index w k2 a).
Proof.
  intros Hext. unfold gather. apply map_ext_in. intros j Hj.
  apply in_seq in Hj. destruct Hj as [_ Hj]. cbn in Hj.
  destruct (Nat.eq_dec w 0) as [->|Hw]; [lia|].
  assert (Hq : j / w < m) by (apply Nat.Div0.div_lt_upper_bound; lia).
  assert (Hr : j mod w < w) by (apply Nat.mod_upper_bound; exact Hw).
  rewrite (Nat.div_mod_eq j w).
  replace (w * (j / w) + j mod w) with (j / w * w + j mod w) by lia.
  rewrite !slice_index_lin by exact Hr.
  apply Hext; assumption.
Qed.

(** C9: on an N x 4 state, [update_state] overwrites position with
    columns 0-1, speed with column 2 and orientation with column 3,
    marks the cached coordinates stale and returns nothing; every other
    attribute keeps its value. *)
Theorem update_state_overwrites_pose (f : fleet) (state : tensor A) (n : nat) :
  shape state = [n; 4] ->
  exists f',
    update_state state f = (Some tt, f')
    /\ shape (position f') = [n; 2]
    /\ shape (speed f') = [n; 1]
    /\ shape (orientation f') = [n; 1]
    /\ (forall v, v < n ->
          at2 (position f') v 0 = at2 state v 0
          /\ at2 (position f') v 1 = at2 state v 1
          /\ at2 (speed f') v 0 = at2 state v 2
          /\ at2 (orientation f') v 0 = at2 state v 3)
    /\ cached_coordinates f' = false
    /\ destination f' = destination f
    /\ dest_orientation f' = dest_orientation f
    /\ dimensions f' = dimensions f
    /\ base_coordinates f' = base_coordinates f
    /\ safety_circle f' = safety_circle f
    /\ area f' = area f
    /\ name f' = name f
    /\ min_lidar_range f' = min_lidar_range f
    /\ max_lidar_range f' = max_lidar_range f
    /\ vision_range f' = vision_range f
    /\ nbatch f' = nbatch f
    /\ diag_bool_buffer f' = diag_bool_buffer f
    /\ coordinates f' = coordinates f.
Proof.
  intros Hs. unfold update_state, bind, lift, assign.
  rewrite (slice_cols state n 4 0 2 Hs) by lia.
  rewrite (slice_cols state n 4 2 3 Hs) by lia.
  rewrite (slice_cols state n 4 3 4 Hs) by lia.
  eexists. split; [reflexivity|]. cbn.
  repeat (split; [reflexivity|]).
  split; [|repeat split; reflexivity].
  intros v Hv. repeat split.
  - apply (at2_slice_cols state n 4 0 2 v 0 Hs Hv). lia.
  - apply (at2_slice_cols state n 4 0 2 v 1 Hs Hv). lia.
  - apply (at2_slice_cols state n 4 2 1 v 0 Hs Hv). lia.
  - apply (at2_slice_cols state n 4 3 1 v 0 Hs Hv). lia.
Qed.

(** C10: [update_state] validates nothing.  Any two-dimensional tensor
    with at least 4 columns is accepted whatever its number of rows,
    which is never compared with [nbatch]; only columns 0-3 are read, so
    two states that agree on them have the same effect. *)
Theorem update_state_validates_nothing (f : fleet) (state : tensor A)
  (m k : nat) :
  shape state = [m; k] -> 4 <= k ->
  exists f',
    update_state state f = (Some tt, f')
    /\ nbatch f' = nbatch f
    /\ shape (position f') = [m; 2]
    /\ shape (speed f') = [m; 1]
    /\ shape (orientation f') = [m; 1]
    /\ (forall v, v < m ->
          at2 (position f') v 0 = at2 state v 0
          /\ at2 (position f') v 1 = at2 state v 1
          /\ at2 (speed f') v 0 = at2 state v 2
          /\ at2 (orientation f') v 0 = at2 state v 3)
    /\ (forall (other : tensor A) (k' : nat),
          shape other = [m; k'] -> 4 <= k' ->
          (forall v c, v < m -> c < 4 -> at2 other v c = at2 state v c) ->
          update_state other f = (Some tt, f')).
Proof.
  intros Hs Hk. unfold update_state, bind, lift, assign.
  rewrite (slice_cols state m k 0 2 Hs) by lia.
  rewrite (slice_cols state m k 2 3 Hs) by lia.
  rewrite (slice_cols state m k 3 4 Hs) by lia.
  eexists. split; [reflexivity|]. cbn.
  repeat (split; [reflexivity|]).
  split.
  - intros v Hv. repeat split.
    + apply (at2_slice_cols state m k 0 2 v 0 Hs Hv). lia.
    + apply (at2_slice_cols state m k 0 2 v 1 Hs Hv). lia.
    + apply (at2_slice_cols state m k 2 1 v 0 Hs Hv). lia.
    + apply (at2_slice_cols state m k 3 1 v 0 Hs Hv). lia.
  - intros other k' Hs' Hk' Hagree.
    rewrite (slice_cols other m k' 0 2 Hs') by lia.
    rewrite (slice_cols other m k' 2 3 Hs') by lia.
    rewrite (slice_cols other m k' 3 4 Hs') by lia.
    assert (Hcol : forall a w, a + w <= 4 ->
              gather (data other) (m * w) (slice_index w k' a)
              = gather (data state) (m * w) (slice_index w k a)).
    { intros a w Haw. apply gather_slice_ext. intros v c Hv Hc.
      specialize (Hagree v (a + c) Hv ltac:(lia)).
      rewrite (at2_rows other m k') in Hagree by exact Hs'.
      rewrite (at2_rows state m k) in Hagree by exact Hs.
      rewrite <- !Nat.add_assoc. exact Hagree. }
    cbn. rewrite (Hcol 0 2), (Hcol 2 1), (Hcol 3 1) by lia. reflexivity.
Qed.

End StateFacts.

(* ================================================================== *)
(** * get_edges *)
(* ================================================================== *)

Section EdgeFacts.
Context {A : Type} `{Scalar A} `{Utils A}.

(** C1: with the cached corners of shape N x 4 x 2, [get_edges] returns
    them as the first array, and as the second an N x 8 x 1 array: for
    each vehicle the y coordinates of its four corners followed by their
    x coordinates. *)
Theorem get_edges_second_array (f : fleet) (n : nat) :
  cached_coordinates f = true ->
  shape (coordinates f) = [n; 4; 2] ->
  exists pt2,
    get_edges f = (Some (coordinates f, pt2), f)
    /\ shape pt2 = [n; 8; 1]
    /\ forall v i, v < n -> i < 4 ->
         at3 pt2 v i 0 = at3 (coordinates f) v i 1
         /\ at3 pt2 v (4 + i) 0 = at3 (coordinates f) v i 0.
Proof.
  intros Hc Hs.
  unfold get_edges, get_coordinates, bind, read, lift, ret.
  rewrite Hc. unfold slice, cat, outer, inner, extent, numel. rewrite Hs.
  cbn. rewrite Nat.eqb_refl. cbn.
  eexists. split; [reflexivity|]. split; [reflexivity|].
  intros v i Hv Hi. unfold at3. cbn [shape data].
  split.
  - reindex (v * (4 + 4) + i).
    rewrite nth_map_seq by lia.
    rewrite cat_pick_left by exact Hi.
    rewrite nth_gather by lia.
    replace (v * 4 + i) with ((v * 4 + i) * 1 + 0) at 1 by lia.
    rewrite slice_index_lin by lia.
    f_equal. rewrite Hs. cbn. lia.
  - reindex (v * (4 + 4) + (4 + i)).
    rewrite nth_map_seq by lia.
    rewrite cat_pick_right by exact Hi.
    rewrite nth_gather by lia.
    replace (v * 4 + i) with ((v * 4 + i) * 1 + 0) at 1 by lia.
    rewrite slice_index_lin by lia.
    f_equal. rewrite Hs. cbn. lia.
Qed.
End EdgeFacts.

(* ================================================================== *)
(** * The coordinate cache *)
(* ================================================================== *)

Section CacheFacts.
Context {A : Type} `{Scalar A} `{Utils A}.

(** [_get_coordinates] marks the cache valid and returns the transformed
    corners, but leaves the attribute [coordinates] as it was. *)
Lemma _get_coordinates_leaves_attribute (f f' : fleet) (r : option (tensor A)) :
  _get_coordinates f = (r, f') ->
  f' = set_cached_coordinates true f.
Proof.
  unfold _get_coordinates, bind, assign, read, lift. cbn.
  destruct (select 1 0 (orientation f)); cbn;
    [destruct (index_none_1 (position f)); cbn|];
    intros E; injection E as _ <-; reflexivity.
Qed.

(** After [update_state], the first [get_coordinates] recomputes; the
    second returns the attribute [coordinates], which no call since the
    constructor has assigned. *)
Lemma get_coordinates_second_call (f f1 f2 : fleet) (state c : tensor A) :
  update_state state f = (Some tt, f1) ->
  get_coordinates f1 = (Some c, f2) ->
  get_coordinates f1 = _get_coordinates f1
  /\ get_coordinates f2 = (Some (coordinates f), f2).
Proof.
  intros Hu Hg.
  assert (Hf1 : cached_coordinates f1 = false /\ coordinates f1 = coordinates f).
  { revert Hu. unfold update_state, bind, lift, assign.
    destruct (slice 1 0 (Some 2) state); [|discriminate].
    destruct (slice 1 2 (Some 3) state); [|discriminate].
    destruct (slice 1 3 (Some 4) state); [|discriminate].
    intros E; injection E as <-. split; reflexivity. }
  destruct Hf1 as [Hc Hk].
  assert (Hrun : get_coordinates f1 = _get_coordinates f1).
  { unfold get_coordinates, bind, read. rewrite Hc. reflexivity. }
  split; [exact Hrun|].
  rewrite Hrun in Hg. apply _get_coordinates_leaves_attribute in Hg. subst f2.
  unfold get_coordinates, bind, read. cbn. rewrite Hk. reflexivity.
Qed.

End CacheFacts.

(* ================================================================== *)
(** * Facts about the real-number model *)
(* ================================================================== *)

Section RealFacts.
Import RealModel.
Local Open Scope R_scope.

Lemma normalize_angle_range (x : R) : in_half_open_turn (normalize_angle x).
Proof.
  unfold in_half_open_turn, normalize_angle.
  set (y := (x - PI) / (2 * PI)).
  assert (Hpi := PI_RGT_0).
  destruct (archimed (- y)) as [Hup1 Hup2].
  rewrite minus_IZR.
  assert (Hx : x = 2 * PI * y + PI) by (unfold y; field; lra).
  set (u := IZR (up (- y))) in *.
  assert (H1 : 0 < PI * (y + u)) by (apply Rmult_lt_0_compat; lra).
  assert (H2 : 0 <= PI * (1 - (y + u))) by (apply Rmult_le_pos; lra).
  split; lra.
Qed.

Lemma normalize_angle_fixed (x : R) :
  in_half_open_turn x -> normalize_angle x = x.
Proof.
  unfold in_half_open_turn, normalize_angle. intros [Hlo Hhi].
  assert (Hpi := PI_RGT_0).
  set (y := (x - PI) / (2 * PI)).
  assert (Hy : -1 < y <= 0).
  { unfold y. split.
    - apply (Rmult_lt_reg_r (2 * PI)); [lra|]. 
      replace ((x - PI) / (2 * PI) * (2 * PI)) with (x - PI) by (field; lra). lra.
    - apply (Rmult_le_reg_r (2 * PI)); [lra|].
      replace ((x - PI) / (2 * PI) * (2 * PI)) with (x - PI) by (field; lra). lra. }
  assert (Hup : up (- y) = 1%Z).
  { symmetry. apply tech_up; simpl; lra. }
  rewrite Hup. simpl. lra.
Qed.

Lemma normalize_angle_0 : normalize_angle 0 = 0.
Proof.
  apply normalize_angle_fixed. unfold in_half_open_turn.
  assert (Hpi := PI_RGT_0). lra.
Qed.

End RealFacts.

(* ================================================================== *)
(** * The concrete fleets are what the constructor builds *)
(* ================================================================== *)

Ltac rcompute :=
  lazy -[Rplus Rminus Rmult Rdiv Ropp Rinv IZR Rtrigo_def.cos Rtrigo_def.sin
         R_sqrt.sqrt Ratan.acos PI RealModel.normalize_angle
         RealModel.overlap_area RealModel.centre_distance
         RealModel.segments_intersect RealModel.Rltb
         RealModel.rotate_translate up Rle_dec Rlt_dec Rabs Rmin Rmax].

(** Equality of structures that hold real numbers, field by field. *)
Ltac req := repeat first [ reflexivity | lra | progress f_equal ].

Section InputFacts.
Import RealModel Inputs.
Local Open Scope R_scope.

Lemma parked_car_constructed : parked_car_built = Some parked_car.
Proof.
  unfold parked_car_built, parked_car. rcompute.
  rewrite normalize_angle_0. unfold rotate_translate. cbn [fst snd].
  rewrite cos_0, sin_0.
  req.
Qed.

Lemma sqrt_25 : sqrt (0 + 6 / 2 * (6 / 2) + 8 / 2 * (8 / 2)) = 5.
Proof.
  replace (0 + 6 / 2 * (6 / 2) + 8 / 2 * (8 / 2)) with (5 * 5) by lra.
  apply sqrt_square. lra.
Qed.

Lemma two_cars_constructed : two_cars_built = Some two_cars.
Proof.
  unfold two_cars_built, two_cars. rcompute.
  rewrite normalize_angle_0. unfold rotate_translate. cbn [fst snd].
  rewrite cos_0, sin_0, sqrt_25.
  req.
Qed.

Lemma distant_cars_constructed : distant_cars_built = Some distant_cars.
Proof.
  unfold distant_cars_built, distant_cars. rcompute.
  rewrite normalize_angle_0. unfold rotate_translate. cbn [fst snd].
  rewrite cos_0, sin_0.
  req.
Qed.

End InputFacts.

Section WitnessesAtInput.
Import RealModel Inputs.

Lemma get_edges_second_array_witness :
  cached_coordinates parked_car = true
  /\ shape (coordinates parked_car) = [1; 4; 2]
  /\ exists pt2,
       get_edges parked_car = (Some (coordinates parked_car, pt2), parked_car)
       /\ shape pt2 = [1; 8; 1].
Proof.
  split; [reflexivity|]. split; [reflexivity|].
  destruct (get_edges_second_array parked_car 1 eq_refl eq_refl)
    as [pt2 [Hrun [Hshape _]]].
  exists pt2. split; assumption.
Defined.

Lemma update_state_overwrites_pose_witness :
  shape (mkT [1; 4] [1; 0; 3; 5]%R) = [1; 4]
  /\ exists f',
       update_state (mkT [1; 4] [1; 0; 3; 5]%R) parked_car = (Some tt, f')
       /\ cached_coordinates f' = false
       /\ dimensions f' = dimensions parked_car.
Proof.
  split; [reflexivity|].
  destruct (update_state_overwrites_pose parked_car
              (mkT [1; 4] [1; 0; 3; 5]%R) 1 eq_refl)
    as [f' [Hrun [_ [_ [_ [_ [Hc [_ [_ [Hd _]]]]]]]]]].
  exists f'. repeat split; assumption.
Defined.

Lemma update_state_validates_nothing_witness :
  shape (mkT [3; 5] [1; 0; 3; 5; 9; 1; 0; 3; 5; 9; 1; 0; 3; 5; 9]%R) = [3; 5]
  /\ 4 <= 5
  /\ exists f',
       update_state (mkT [3; 5] [1; 0; 3; 5; 9; 1; 0; 3; 5; 9; 1; 0; 3; 5; 9]%R)
                    parked_car = (Some tt, f')
       /\ nbatch f' = 1
       /\ shape (position f') = [3; 2].
Proof.
  split; [reflexivity|]. split; [lia|].
  destruct (update_state_validates_nothing parked_car
              (mkT [3; 5] [1; 0; 3; 5; 9; 1; 0; 3; 5; 9; 1; 0; 3; 5; 9]%R)
              3 5 eq_refl ltac:(lia))
    as [f' [Hrun [Hn [Hp _]]]].
  exists f'. repeat split; assumption.
Defined.

End WitnessesAtInput.

Section CacheAtInput.
Import RealModel Inputs.
Local Open Scope R_scope.

(** C2: on the one-car fleet, after [update_state] moves the car from
    (0, 0) to (1, 0), the first [get_coordinates] returns the corners of
    the car at (1, 0) and the second, with no update in between, returns
    the corners of the car at (0, 0). *)
Theorem get_coordinates_twice_after_update :
  parked_car_built = Some parked_car
  /\ exists f1 c1 f2 c2 f3,
       update_state (mkT [1; 4]%nat [1; 0; 0; 0]) parked_car = (Some tt, f1)
       /\ get_coordinates f1 = (Some c1, f2)
       /\ get_coordinates f2 = (Some c2, f3)
       /\ c1 = mkT [1; 4; 2]%nat [3; 1; 3; -1; -1; -1; -1; 1]
       /\ c2 = mkT [1; 4; 2]%nat [2; 1; 2; -1; -2; -1; -2; 1]
       /\ c1 <> c2
       /\ cached_coordinates f3 = true
       /\ position f3 = mkT [1; 2]%nat [1; 0].
Proof.
  split; [exact parked_car_constructed|].
  do 5 eexists.
  split; [rcompute; reflexivity|].
  split; [rcompute; reflexivity|].
  split; [rcompute; reflexivity|].
  unfold rotate_translate. cbn [fst snd]. rewrite cos_0, sin_0.
  split; [req|]. split; [reflexivity|].
  split; [|split; reflexivity].
  intros E. injection E as E0 _. lra.
Qed.

(** C4: [update_state] stores the orientation column as it comes: after
    a state whose orientation is 5, the orientation of the fleet is 5,
    which is above pi. *)
Theorem update_state_keeps_raw_orientation :
  parked_car_built = Some parked_car
  /\ (forall x, In x (data (orientation parked_car)) -> in_half_open_turn x)
  /\ exists f1,
       update_state (mkT [1; 4]%nat [0; 0; 0; 5]) parked_car = (Some tt, f1)
       /\ orientation f1 = mkT [1; 1]%nat [5]
       /\ ~ in_half_open_turn 5.
Proof.
  split; [exact parked_car_constructed|].
  assert (Hpi := PI_RGT_0). assert (Hpi4 := PI_4).
  split.
  - intros x [<-|[]]. unfold in_half_open_turn. lra.
  - eexists. split; [rcompute; reflexivity|]. split; [reflexivity|].
    unfold in_half_open_turn. lra.
Qed.

End CacheAtInput.

(* ================================================================== *)
(** * safety_circle_overlap *)
(* ================================================================== *)

Section OverlapRows.
Context {A : Type} `{Scalar A} `{Utils A}.

(** For two fleets of two vehicles, the rows handed to
    [circle_area_overlap] pair vehicle 0 with vehicle 0, vehicle 1 with
    vehicle 1, and then the same two pairs again, whatever
    [circle_area_overlap] computes from a row. *)
Lemma safety_circle_overlap_rows (obj1 obj2 : fleet)
  (a0x a0y a1x a1y b0x b0y b1x b1y ra0 ra1 rb0 rb1 : A) :
  nbatch obj1 = 2 -> nbatch obj2 = 2 ->
  position obj1 = mkT [2; 2] [a0x; a0y; a1x; a1y] ->
  position obj2 = mkT [2; 2] [b0x; b0y; b1x; b1y] ->
  safety_circle obj1 = mkT [2; 1] [ra0; ra1] ->
  safety_circle obj2 = mkT [2; 1] [rb0; rb1] ->
  safety_circle_overlap obj1 obj2
  = match circle_area_overlap
            (mkT [4; 2] [a0x; a0y; a1x; a1y; a0x; a0y; a1x; a1y])
            (mkT [4; 2] [b0x; b0y; b1x; b1y; b0x; b0y; b1x; b1y])
            (mkT [4; 1] [ra0; ra1; ra0; ra1])
            (mkT [4; 1] [rb0; rb1; rb0; rb1]) with
    | Some r => view [Some 2; Some 2] r
    | None => None
    end.
Proof.
  intros Hn1 Hn2 Hp1 Hp2 Hr1 Hr2. unfold safety_circle_overlap.
  rewrite Hn1, Hn2, Hp1, Hp2, Hr1, Hr2. reflexivity.
Qed.

End OverlapRows.

Section OverlapAtInput.
Import RealModel Inputs.
Local Open Scope R_scope.

Lemma overlap_area_same_circle (r : R) :
  0 < r -> overlap_area (centre_distance 100 0 100 0) r r = PI * (r * r).
Proof.
  intros Hr. unfold centre_distance.
  replace ((100 - 100) * (100 - 100) + (0 - 0) * (0 - 0)) with 0 by lra.
  rewrite sqrt_0. unfold overlap_area.
  destruct (Rle_dec (r + r) 0) as [Hle|_]; [lra|].
  replace (r - r) with 0 by lra. rewrite Rabs_R0.
  destruct (Rle_dec 0 0) as [_|Hn]; [|lra].
  unfold Rmin. destruct (Rle_dec r r); reflexivity.
Qed.

Lemma overlap_area_far_apart (r : R) :
  r + r <= 100 -> overlap_area (centre_distance 0 0 100 0) r r = 0.
Proof.
  intros Hr. unfold centre_distance.
  replace ((0 - 100) * (0 - 100) + (0 - 0) * (0 - 0)) with (100 * 100) by lra.
  rewrite sqrt_square by lra. unfold overlap_area.
  destruct (Rle_dec (r + r) 100) as [_|Hn]; [reflexivity|lra].
Qed.

(** C5: on the fleet of two cars 100 apart, entry [0, 1] of
    [safety_circle_overlap] is the overlap of the safety circle of
    vehicle 1 with itself, a full disc, while the safety circles of
    vehicle 0 and vehicle 1 do not meet. *)
Theorem safety_circle_overlap_two_cars :
  two_cars_built = Some two_cars
  /\ exists m,
       safety_circle_overlap two_cars two_cars = Some m
       /\ shape m = [2; 2]%nat
       /\ at2 m 0 1
          = overlap_area (centre_distance 100 0 100 0) (13 / 2) (13 / 2)
       /\ at2 m 0 1 = PI * (13 / 2 * (13 / 2))
       /\ overlap_area (centre_distance 0 0 100 0) (13 / 2) (13 / 2) = 0
       /\ at2 m 0 1 <> 0.
Proof.
  split; [exact two_cars_constructed|].
  eexists. split; [rcompute; reflexivity|].
  split; [reflexivity|].
  assert (Hsame := overlap_area_same_circle (13 / 2) ltac:(lra)).
  assert (Hpi := PI_RGT_0).
  split; [reflexivity|].
  split; [exact Hsame|].
  split; [apply overlap_area_far_apart; lra|].
  unfold at2. cbn [shape data ravel numel fold_right nth Nat.mul Nat.add].
  rewrite Hsame. nra.
Qed.

End OverlapAtInput.

Section HeadingAtInput.
Import RealModel Inputs.
Local Open Scope R_scope.

Lemma clamp_above (lo hi x : R) :
  lo <= hi -> hi < x -> clamp lo hi x = hi.
Proof.
  intros Hlh Hx. unfold clamp. cbn [fltb Scalar_R]. unfold Rltb.
  destruct (Rlt_dec x lo) as [Hlt|_]; [lra|].
  destruct (Rlt_dec hi x) as [_|Hn]; [reflexivity|lra].
Qed.

Lemma clamp_inside (lo hi x : R) :
  lo <= x -> x <= hi -> clamp lo hi x = x.
Proof.
  intros Hlo Hhi. unfold clamp. cbn [fltb Scalar_R]. unfold Rltb.
  destruct (Rlt_dec x lo) as [Hlt|_]; [lra|].
  destruct (Rlt_dec hi x) as [Hlt|_]; [lra|reflexivity].
Qed.

Lemma normalize_angle_acos (x : R) : normalize_angle (acos x) = acos x.
Proof.
  apply normalize_angle_fixed. unfold in_half_open_turn.
  assert (Hb := acos_bound x). assert (Hpi := PI_RGT_0). lra.
Qed.

Lemma sqrt_25_heading :
  sqrt (0 + (0 - 0) * (0 - 0) + (5 - 0) * (5 - 0)) = 5.
Proof.
  replace (0 + (0 - 0) * (0 - 0) + (5 - 0) * (5 - 0)) with (5 * 5) by lra.
  apply sqrt_square. lra.
Qed.

(** C6: for the one-car fleet at the origin with heading 0 and the
    target (0, 5), [optimal_heading_to_point] returns two rows for the
    one vehicle: acos (1 - 1e-5), which is not pi/2, then pi/2.  For a
    fleet of two vehicles it raises. *)
Theorem optimal_heading_to_point_one_car :
  (exists t,
     optimal_heading_to_point (mkT [1; 2]%nat [0; 5]) parked_car
     = (Some t, parked_car)
     /\ shape t = [2; 1]%nat
     /\ data t = [acos (1 - 1 / 100000); PI / 2]
     /\ acos (1 - 1 / 100000) <> PI / 2)
  /\ fst (optimal_heading_to_point (mkT [2; 2]%nat [0; 5; 100; 5]) two_cars)
     = None.
Proof.
  split; [|reflexivity].
  eexists. split; [rcompute; reflexivity|].
  split; [reflexivity|].
  split.
  - cbn [data]. rewrite sqrt_25_heading, cos_0, sin_0.
    change (if Rltb ?x ?lo then ?lo else if Rltb ?hi ?x then ?hi else ?x)
      with (clamp lo hi x).
    rewrite clamp_above; [| lra |].
    + rewrite clamp_inside; [| lra | lra].
      rewrite !normalize_angle_acos.
      replace (0 + (0 - 0) / (5 + 1 / 10000000) * 0
               + (5 - 0) / (5 + 1 / 10000000) * 0) with 0 by (field; lra).
      rewrite acos_0. reflexivity.
    + replace (0 + (0 - 0) / (5 + 1 / 10000000) * 1
               + (5 - 0) / (5 + 1 / 10000000) * 1)
        with (50000000 / 50000001) by (field; lra).
      lra.
  - intros E. apply (f_equal cos) in E.
    rewrite cos_acos in E by lra. rewrite cos_PI2 in E. lra.
Qed.

End HeadingAtInput.

(* ================================================================== *)
(** * Shapes and entries along collision_check *)
(* ================================================================== *)

Section CollisionShapes.

Lemma view_rows {X} (t : tensor X) (m : nat) :
  numel (shape t) = m * 2 ->
  view [None; Some 2] t = Some (mkT [m; 2] (data t)).
Proof.
  intros Hn. unfold view. cbn. rewrite Hn.
  rewrite Nat.Div0.mod_mul, Nat.div_mul by lia. reflexivity.
Qed.

Lemma view_blocks {X} (t : tensor X) (n m : nat) :
  0 < n -> numel (shape t) = n * 4 * m ->
  view [Some n; Some 4; None] t = Some (mkT [n; 4; m] (data t)).
Proof.
  intros Hpos Hn. unfold view. cbn. rewrite Hn.
  replace (n * 4 * m) with (m * (n * 4)) by lia.
  destruct (n * 4) as [|q] eqn:E; [lia|].
  rewrite Nat.Div0.mod_mul, Nat.div_mul by lia. reflexivity.
Qed.

Lemma bindex_same_square (m k : nat) :
  k < m * m -> bindex [m; m] [m; m] k = k.
Proof.
  intros Hk. unfold bindex, pad_shape, map2. cbn.
  destruct (Nat.eqb_spec m 1) as [->|Hm]; cbn.
  - lia.
  - rewrite !Nat.mul_1_r, Nat.div_1_r.
    assert (Hdm := Nat.div_mod_eq k m). lia.
Qed.

Lemma zip_with_same_square {X Y Z} `{Default X} `{Default Y}
  (g : X -> Y -> Z) (t1 : tensor X) (t2 : tensor Y) (m : nat) :
  shape t1 = [m; m] -> shape t2 = [m; m] ->
  zip_with g t1 t2
  = Some (mkT [m; m]
              (map (fun k => g (nth k (data t1) dflt) (nth k (data t2) dflt))
                   (seq 0 (m * m)))).
Proof.
  intros H1 H2. unfold zip_with, bshape, pad_shape. rewrite H1, H2. cbn.
  rewrite Nat.eqb_refl.
  replace (numel [m; m]) with (m * m) by (cbn; lia).
  f_equal. f_equal. apply map_ext_in. intros k Hk. apply in_seq in Hk.
  rewrite bindex_same_square by lia. reflexivity.
Qed.

Lemma reduce_orb_middle (t : tensor bool) (n a m : nat) :
  shape t = [n; a; m] ->
  reduce orb false 1 false t
  = Some (mkT [n; m]
              (map (fun k =>
                      fold_left orb
                        (gather (data t) a
                           (fun i => slice_index m (a * m) (i * m) k))
                        false)
                   (seq 0 (n * m)))).
Proof.
  intros Hs. unfold reduce, outer, inner, extent. rewrite Hs. cbn.
  rewrite !Nat.mul_1_r. reflexivity.
Qed.

Lemma reduce_orb_last (t : tensor bool) (n m : nat) :
  shape t = [n; m] ->
  reduce orb false 1 false t
  = Some (mkT [n]
              (map (fun k =>
                      fold_left orb
                        (gather (data t) m (fun j => slice_index 1 m j k))
                        false)
                   (seq 0 n))).
Proof.
  intros Hs. unfold reduce, outer, inner, extent. rewrite Hs. cbn.
  rewrite !Nat.mul_1_r. f_equal. f_equal.
  apply map_ext. intros k. f_equal. unfold gather.
  apply map_ext. intros j. rewrite !Nat.mul_1_r. reflexivity.
Qed.

Lemma fold_orb_gather (l : list bool) (n : nat) (ix : nat -> nat) :
  fold_left orb (gather l n ix) false = true
  <-> exists j, j < n /\ nth (ix j) l dflt = true.
Proof. unfold gather. apply (fold_orb_exists (fun j => nth (ix j) l dflt)). Qed.

(** The mask of the constructor: false exactly on the diagonal. *)
Lemma not_diag_ones_entries (m : nat) :
  not_diag_ones m
  = Some (mkT [m; m]
              (map (fun k => negb (k / m =? k mod m)) (seq 0 (m * m)))).
Proof.
  unfold not_diag_ones, diag, ones, tmap. cbn. rewrite map_map.
  f_equal. f_equal. apply map_ext_in. intros k Hk. apply in_seq in Hk.
  destruct (Nat.eqb_spec (k / m) (k mod m)) as [E|E]; [|reflexivity].
  assert (Hd : k / m < m) by (apply Nat.Div0.div_lt_upper_bound; lia).
  rewrite (nth_indep _ dflt 1%Z) by (rewrite repeat_length; exact Hd).
  rewrite nth_repeat. reflexivity.
Qed.

End CollisionShapes.

Section EdgeFrame.
Context {A : Type} `{Scalar A} `{Utils A}.

Lemma get_coordinates_frame (f f' : fleet) (r : option (tensor A)) :
  get_coordinates f = (r, f') ->
  nbatch f' = nbatch f /\ diag_bool_buffer f' = diag_bool_buffer f.
Proof.
  unfold get_coordinates, bind, read.
  destruct (cached_coordinates f).
  - intros E. injection E as _ <-. split; reflexivity.
  - intros E. apply _get_coordinates_leaves_attribute in E. subst f'.
    split; reflexivity.
Qed.

Lemma get_edges_inv (f f' : fleet) (p1 p2 : tensor A) :
  get_edges f = (Some (p1, p2), f') ->
  get_coordinates f = (Some p1, f')
  /\ exists a b,
       slice 2 1 None p1 = Some a /\ slice 2 0 (Some 1) p1 = Some b
       /\ cat 1 a b = Some p2.
Proof.
  unfold get_edges, bind, lift, ret.
  destruct (get_coordinates f) as [[c|] f1]; [|discriminate].
  destruct (slice 2 1 None c) as [a|] eqn:Ea; [|discriminate].
  destruct (slice 2 0 (Some 1) c) as [b|] eqn:Eb; [|discriminate].
  destruct (cat 1 a b) as [q|] eqn:Ec; [|discriminate].
  intros E. injection E as <- <- <-. split; [reflexivity|].
  exists a, b. repeat split; assumption.
Qed.

Lemma second_array_shape (c a b p2 : tensor A) (n : nat) :
  shape c = [n; 4; 2] ->
  slice 2 1 None c = Some a -> slice 2 0 (Some 1) c = Some b ->
  cat 1 a b = Some p2 ->
  shape p2 = [n; 8; 1].
Proof.
  intros Hs. unfold slice. rewrite Hs. cbn.
  intros Ea Eb. injection Ea as <-. injection Eb as <-.
  unfold cat. cbn. rewrite Nat.eqb_refl. cbn.
  intros E. injection E as <-. reflexivity.
Qed.

End EdgeFrame.

Section CollisionFacts.
Import RealModel Inputs.

(** What [collision_check] returns on a fleet of N >= 1 vehicles with
    the mask of the constructor: entry v is true exactly when one of the
    four segments that [get_edges] lists for vehicle v intersects another
    of the 4N listed segments.  Segment k runs from row k of the first
    array to row k of the second, both read as 4N x 2.  The mask takes
    out only the pair of a segment with itself. *)
Lemma collision_check_entries (f f' : fleet) (p1 p2 : tensor R) (n : nat) :
  0 < n ->
  nbatch f = n ->
  not_diag_ones (n * 4) = Some (diag_bool_buffer f) ->
  get_edges f = (Some (p1, p2), f') ->
  shape p1 = [n; 4; 2] ->
  exists r,
    collision_check f = (Some r, f')
    /\ shape r = [n]
    /\ length (data r) = n
    /\ forall v, v < n ->
         (at1 r v = true <->
          exists i j, i < 4 /\ j < n * 4 /\ j <> v * 4 + i
                      /\ edges_intersect
                           (mkT [n * 4; 2] (data p1)) (mkT [n * 4; 2] (data p2))
                           (mkT [n * 4; 2] (data p1)) (mkT [n * 4; 2] (data p2))
                           (v * 4 + i) j = true).
Proof.
  intros Hpos Hn Hmask Hedges Hs1.
  destruct (get_edges_inv f f' p1 p2 Hedges) as [Hgc [a [b [Ha [Hb Hcat]]]]].
  assert (Hs2 := second_array_shape p1 a b p2 n Hs1 Ha Hb Hcat).
  destruct (get_coordinates_frame f f' _ Hgc) as [Hn' Hd'].
  rewrite not_diag_ones_entries in Hmask. injection Hmask as Hmask.
  set (m := n * 4) in *.
  assert (Hv1 : view [None; Some 2] p1 = Some (mkT [m; 2] (data p1))).
  { apply view_rows. rewrite Hs1. cbn. unfold m. lia. }
  assert (Hv2 : view [None; Some 2] p2 = Some (mkT [m; 2] (data p2))).
  { apply view_rows. rewrite Hs2. cbn. unfold m. lia. }
  set (q1 := mkT [m; 2] (data p1)) in *.
  set (q2 := mkT [m; 2] (data p2)) in *.
  set (x := mkT [m; m]
                (map (fun k => edges_intersect q1 q2 q1 q2 (k / m) (k mod m))
                     (seq 0 (m * m)))).
  assert (Hx : check_intersection_lines q1 q2 q1 q2 = Some x).
  { cbn. unfold check_intersection_lines_spec. cbn [shape q1 q2].
    rewrite Nat.eqb_refl. reflexivity. }
  set (c := mkT [m; m]
                (map (fun k => andb (nth k (data x) dflt)
                                    (nth k (data (diag_bool_buffer f')) dflt))
                     (seq 0 (m * m)))).
  assert (Hc : zip_with andb x (diag_bool_buffer f') = Some c).
  { apply zip_with_same_square; [reflexivity|]. rewrite Hd', <- Hmask. reflexivity. }
  assert (Hvc : view [Some (nbatch f'); Some 4; None] c
                = Some (mkT [n; 4; m] (data c))).
  { rewrite Hn', Hn. apply view_blocks; [exact Hpos|]. cbn. unfold m. lia. }
  assert (Hr1 := reduce_orb_middle (mkT [n; 4; m] (data c)) n 4 m eq_refl).
  set (d1 := mkT [n; m] _) in Hr1.
  assert (Hr2 := reduce_orb_last d1 n m eq_refl).
  set (r := mkT [n] _) in Hr2.
  exists r.
  split.
  { unfold collision_check, bind, lift, read. rewrite Hedges. cbn [fst snd].
    rewrite Hv1, Hv2, Hx, Hc, Hvc, Hr1, Hr2. reflexivity. }
  split; [reflexivity|].
  split; [cbn [data r]; rewrite length_map, length_seq; reflexivity|].
  intros v Hv. unfold at1. cbn [data r].
  rewrite nth_map_seq by exact Hv.
  rewrite fold_orb_gather.
  assert (Hentry : forall i j, i < 4 -> j < m ->
            nth ((v * 4 + i) * m + j) (data c) dflt
            = andb (edges_intersect q1 q2 q1 q2 (v * 4 + i) j)
                   (negb (v * 4 + i =? j))).
  { intros i j Hi Hj. cbn [data c].
    assert (Hk : (v * 4 + i) * m + j < m * m) by (unfold m in *; nia).
    rewrite nth_map_seq by exact Hk.
    cbn [data x]. rewrite nth_map_seq by exact Hk.
    rewrite Hd', <- Hmask. cbn [data]. rewrite nth_map_seq by exact Hk.
    destruct (div_mod_lin (v * 4 + i) m j Hj) as [-> ->]. reflexivity. }
  assert (Hmid : forall j, j < m ->
            (nth (v * m + j) (data d1) dflt = true <->
             exists i, i < 4 /\ nth ((v * 4 + i) * m + j) (data c) dflt = true)).
  { intros j Hj. cbn [data d1].
    rewrite nth_map_seq by (unfold m in *; nia).
    rewrite fold_orb_gather. cbn [data].
    split; intros [i [Hi Hnth]]; exists i; (split; [exact Hi|]).
    - rewrite slice_index_lin in Hnth by exact Hj.
      replace ((v * 4 + i) * m + j) with (v * (4 * m) + i * m + j) by lia.
      exact Hnth.
    - rewrite slice_index_lin by exact Hj.
      replace (v * (4 * m) + i * m + j) with ((v * 4 + i) * m + j) by lia.
      exact Hnth. }
  split.
  - intros [j [Hj Hnth]].
    replace v with (v * 1 + 0) in Hnth at 1 by lia.
    rewrite slice_index_lin in Hnth by lia.
    replace (v * m + j + 0) with (v * m + j) in Hnth by lia.
    apply Hmid in Hnth; [|exact Hj]. destruct Hnth as [i [Hi Hnth]].
    rewrite Hentry in Hnth by assumption.
    apply andb_true_iff in Hnth. destruct Hnth as [Hint Hne].
    apply negb_true_iff, Nat.eqb_neq in Hne.
    exists i, j. repeat split; [exact Hi|exact Hj|lia|exact Hint].
  - intros [i [j [Hi [Hj [Hne Hint]]]]].
    exists j. split; [exact Hj|].
    replace v with (v * 1 + 0) at 1 by lia.
    rewrite slice_index_lin by lia.
    replace (v * m + j + 0) with (v * m + j) by lia.
    apply Hmid; [exact Hj|]. exists i. split; [exact Hi|].
    rewrite Hentry by assumption.
    apply andb_true_iff. split; [exact Hint|].
    apply negb_true_iff, Nat.eqb_neq. lia.
Qed.

End CollisionFacts.

Section CollisionAtInput.
Import RealModel Inputs.
Local Open Scope R_scope.

Lemma Rltb_true (x y : R) : x < y -> Rltb x y = true.
Proof. intros Hlt. unfold Rltb. destruct (Rlt_dec x y); [reflexivity|lra]. Qed.

Lemma Rltb_false (x y : R) : y <= x -> Rltb x y = false.
Proof. intros Hle. unfold Rltb. destruct (Rlt_dec x y); [lra|reflexivity]. Qed.

(** Decides [segments_intersect] on numerals. *)
Ltac segments :=
  unfold segments_intersect, opposite_signs, orient, Rltb;
  repeat match goal with
         | |- context [Rlt_dec ?a ?b] => destruct (Rlt_dec a b); try lra
         end;
  reflexivity.

(** The segments that [get_edges] lists first and second for a 4 x 2
    car at the origin, (2, 1)-(1, -1) and (2, -1)-(-1, 1), cross. *)
Lemma listed_edges_cross : segments_intersect 2 1 1 (-1) 2 (-1) (-1) 1 = true.
Proof. segments. Qed.

(** So do those listed for the same car at (20, 0), (22, 1)-(1, -1) and
    (22, -1)-(-1, 1). *)
Lemma listed_edges_cross_at_20 :
  segments_intersect 22 1 1 (-1) 22 (-1) (-1) 1 = true.
Proof. segments. Qed.

(** With the strict test, no two sides of one parallelogram intersect:
    neighbouring sides only share a corner, and opposite sides are
    parallel.  So a mask that takes out only the pair of a side with
    itself would not by itself make a vehicle collide with itself. *)
Lemma sides_of_one_rectangle_do_not_cross (x0 y0 x1 y1 x2 y2 x3 y3 : R) :
  x3 - x2 = x0 - x1 -> y3 - y2 = y0 - y1 ->
  segments_intersect x0 y0 x1 y1 x1 y1 x2 y2 = false
  /\ segments_intersect x0 y0 x1 y1 x2 y2 x3 y3 = false
  /\ segments_intersect x0 y0 x1 y1 x3 y3 x0 y0 = false
  /\ segments_intersect x1 y1 x2 y2 x2 y2 x3 y3 = false
  /\ segments_intersect x1 y1 x2 y2 x3 y3 x0 y0 = false
  /\ segments_intersect x2 y2 x3 y3 x3 y3 x0 y0 = false.
Proof.
  intros Hx Hy.
  assert (Ex : x3 = x2 + x0 - x1) by lra.
  assert (Ey : y3 = y2 + y0 - y1) by lra.
  subst x3 y3. clear Hx Hy.
  unfold segments_intersect, opposite_signs, orient, Rltb.
  repeat split;
    repeat match goal with
           | |- context [Rlt_dec ?a ?b] => destruct (Rlt_dec a b); try lra
           end;
    reflexivity.
Qed.

(** The test does not depend on the order of the two segments. *)
Lemma segments_intersect_sym (a1x a1y a2x a2y b1x b1y b2x b2y : R) :
  segments_intersect a1x a1y a2x a2y b1x b1y b2x b2y
  = segments_intersect b1x b1y b2x b2y a1x a1y a2x a2y.
Proof. unfold segments_intersect. apply andb_comm. Qed.

Lemma all_true (r : tensor bool) (n : nat) :
  shape r = [n] -> length (data r) = n ->
  (forall v, (v < n)%nat -> at1 r v = true) ->
  r = mkT [n] (List.repeat true n).
Proof.
  intros Hs Hl Hent. destruct r as [sh d]. cbn in *. subst sh. f_equal.
  apply (nth_ext _ _ dflt true).
  - rewrite repeat_length. exact Hl.
  - intros k Hk. rewrite Hl in Hk. rewrite nth_repeat.
    exact (Hent k Hk).
Qed.

(** C3: the code at two inputs where no vehicle touches another.  Two
    4 x 2 cars 20 apart, which the spec lists as not colliding, are both
    reported as colliding, and so is a car that is alone in its fleet:
    the segments that [get_edges] lists are not the sides of the
    rectangle, and two of those listed for one car cross each other. *)
Theorem collision_check_reports_cars_apart :
  distant_cars_built = Some distant_cars
  /\ collision_check distant_cars
     = (Some (mkT [2%nat] [true; true]), distant_cars)
  /\ parked_car_built = Some parked_car
  /\ collision_check parked_car = (Some (mkT [1%nat] [true]), parked_car).
Proof.
  split; [exact distant_cars_constructed|].
  split; [|split; [exact parked_car_constructed|]].
  - destruct (collision_check_entries distant_cars distant_cars
                (coordinates distant_cars)
                (mkT [2; 8; 1]%nat
                     [1; -1; -1; 1; 2; 2; -2; -2;
                      1; -1; -1; 1; 22; 22; 18; 18]) 2
                ltac:(lia) eq_refl eq_refl eq_refl eq_refl)
      as [r [Hrun [Hs [Hl Hent]]]].
    rewrite Hrun. f_equal. f_equal.
    apply (all_true r 2 Hs Hl). intros v Hv. apply Hent; [exact Hv|].
    destruct v as [|[|v]]; [| |lia].
    + exists 0%nat, 1%nat. repeat split; [lia|lia|lia|].
      exact listed_edges_cross.
    + exists 0%nat, 5%nat. repeat split; [lia|lia|lia|].
      exact listed_edges_cross_at_20.
  - destruct (collision_check_entries parked_car parked_car
                (coordinates parked_car)
                (mkT [1; 8; 1]%nat [1; -1; -1; 1; 2; 2; -2; -2]) 1
                ltac:(lia) eq_refl eq_refl eq_refl eq_refl)
      as [r [Hrun [Hs [Hl Hent]]]].
    rewrite Hrun. f_equal. f_equal.
    apply (all_true r 1 Hs Hl). intros v Hv. apply Hent; [exact Hv|].
    replace v with 0%nat by lia.
    exists 0%nat, 1%nat. repeat split; [lia|lia|lia|].
    exact listed_edges_cross.
Qed.

End CollisionAtInput.

(* ================================================================== *)
(** * Recomputed coordinates *)
(* ================================================================== *)

Section TransformFacts.
Import RealModel Inputs.
Local Open Scope R_scope.






End TransformFacts.

Section RestoredPose.
Context {A : Type} `{Scalar A} `{Utils A}.

(** [update_state] assigns neither the attribute [coordinates] nor the
    base corners, and clears the cache flag. *)
Lemma update_state_frame (state : tensor A) (g g' : fleet) :
  update_state state g = (Some tt, g') ->
  cached_coordinates g' = false
  /\ coordinates g' = coordinates g
  /\ base_coordinates g' = base_coordinates g.
Proof.
  unfold update_state, bind, lift, assign.
  destruct (slice 1 0 (Some 2) state); [|discriminate].
  destruct (slice 1 2 (Some 3) state); [|discriminate].
  destruct (slice 1 3 (Some 4) state); [|discriminate].
  intros E; injection E as <-. repeat split; reflexivity.
Qed.

(** What [_get_coordinates] returns depends on the base corners, the
    orientation and the position only. *)
Lemma _get_coordinates_of_pose (g g' : fleet) :
  base_coordinates g = base_coordinates g' ->
  orientation g = orientation g' ->
  position g = position g' ->
  fst (_get_coordinates g) = fst (_get_coordinates g').
Proof.
  intros Hb Ho Hp. unfold _get_coordinates, bind, assign, read, lift.
  cbn [fst snd].
  change (orientation (set_cached_coordinates true g)) with (orientation g).
  change (position (set_cached_coordinates true g)) with (position g).
  change (base_coordinates (set_cached_coordinates true g))
    with (base_coordinates g).
  change (orientation (set_cached_coordinates true g'))
    with (orientation g').
  change (position (set_cached_coordinates true g')) with (position g').
  change (base_coordinates (set_cached_coordinates true g'))
    with (base_coordinates g').
  rewrite Hb, Ho, Hp.
  destruct (select 1 0 (orientation g')); [|reflexivity].
  destruct (index_none_1 (position g')); reflexivity.
Qed.

(** Moving away, reading, and moving back, for any helper functions: on a
    fleet whose attribute [coordinates] holds the corners of its pose, as
    the constructor leaves it, the read after the first update leaves the
    attribute as it was, so the value cached before the second update is
    the one of the first pose, and the read after the second update
    returns a value equal to it although the pose has changed. *)
Lemma get_coordinates_after_restoring_pose (f f1 f2 f3 : fleet)
  (s1 s0 : tensor A) (r1 : option (tensor A)) :
  fst (_get_coordinates f) = Some (coordinates f) ->
  update_state s1 f = (Some tt, f1) ->
  get_coordinates f1 = (r1, f2) ->
  update_state s0 f2 = (Some tt, f3) ->
  position f3 = position f -> orientation f3 = orientation f ->
  cached_coordinates f2 = true
  /\ coordinates f2 = coordinates f
  /\ position f2 = position f1
  /\ get_coordinates f2 = (Some (coordinates f), f2)
  /\ get_coordinates f3
     = (Some (coordinates f2), set_cached_coordinates true f3).
Proof.
  intros Hsync Hu1 Hg1 Hu0 Hp Ho.
  destruct (update_state_frame s1 f f1 Hu1) as [Hc1 [Hk1 Hb1]].
  assert (Hf2 : f2 = set_cached_coordinates true f1).
  { revert Hg1. unfold get_coordinates, bind, read. rewrite Hc1.
    apply _get_coordinates_leaves_attribute. }
  destruct (update_state_frame s0 f2 f3 Hu0) as [Hc3 [Hk3 Hb3]].
  subst f2. cbn [cached_coordinates coordinates position
                 set_cached_coordinates] in *.
  split; [reflexivity|]. split; [exact Hk1|]. split; [reflexivity|].
  split.
  - unfold get_coordinates, bind, read. cbn. rewrite Hk1. reflexivity.
  - assert (Hfst : fst (_get_coordinates f3) = Some (coordinates f)).
    { rewrite <- Hsync. apply _get_coordinates_of_pose.
      - rewrite Hb3. exact Hb1.
      - exact Ho.
      - exact Hp. }
    unfold get_coordinates, bind, read. rewrite Hc3.
    destruct (_get_coordinates f3) as [r3 f4] eqn:E.
    apply _get_coordinates_leaves_attribute in E. subst f4.
    cbn in Hfst. rewrite Hfst, Hk1. reflexivity.
Qed.

End RestoredPose.

Section RestoredPoseAtInput.
Import RealModel Inputs.
Local Open Scope R_scope.

(** C7: the code on the one-car fleet built at (0, 0) with orientation
    0.  [update_state] moves the car to (1, 0) and [get_coordinates]
    returns the corners at (1, 0), leaving the attribute [coordinates]
    with the corners at (0, 0) and the cache marked valid.  [update_state]
    then moves the car back to (0, 0): the [get_coordinates] that follows
    returns exactly the value that was cached before this update,
    although the position changed from (1, 0) to (0, 0). *)
Theorem get_coordinates_after_moving_back :
  parked_car_built = Some parked_car
  /\ exists f1 c1 f2 f3 c3 f4,
       update_state (mkT [1; 4]%nat [1; 0; 0; 0]) parked_car = (Some tt, f1)
       /\ get_coordinates f1 = (Some c1, f2)
       /\ c1 = mkT [1; 4; 2]%nat [3; 1; 3; -1; -1; -1; -1; 1]
       /\ cached_coordinates f2 = true
       /\ coordinates f2 = mkT [1; 4; 2]%nat [2; 1; 2; -1; -2; -1; -2; 1]
       /\ get_coordinates f2 = (Some (coordinates f2), f2)
       /\ position f2 = mkT [1; 2]%nat [1; 0]
       /\ update_state (mkT [1; 4]%nat [0; 0; 0; 0]) f2 = (Some tt, f3)
       /\ position f3 = mkT [1; 2]%nat [0; 0]
       /\ position f3 <> position f2
       /\ orientation f3 = orientation f2
       /\ get_coordinates f3 = (Some c3, f4)
       /\ c3 = coordinates f2.
Proof.
  split; [exact parked_car_constructed|].
  do 6 eexists.
  split; [rcompute; reflexivity|].
  split; [rcompute; reflexivity|].
  unfold rotate_translate. cbn [fst snd]. rewrite cos_0, sin_0.
  split; [req|].
  split; [reflexivity|]. split; [reflexivity|]. split; [reflexivity|].
  split; [reflexivity|].
  split; [rcompute; reflexivity|].
  split; [reflexivity|].
  split; [intros E; injection E as E0; lra|].
  split; [reflexivity|].
  split; [rcompute; reflexivity|].
  unfold rotate_translate. cbn [fst snd coordinates]. rewrite cos_0, sin_0.
  req.
Qed.

End RestoredPoseAtInput.

(* ================================================================== *)
(** * Construction *)
(* ================================================================== *)

Section ConstructionFacts.
Import RealModel Inputs.
Local Open Scope R_scope.







End ConstructionFacts.

Section ConstructedInvariants.
Import RealModel Inputs.
Local Open Scope R_scope.

(** The constructor leaves every orientation and destination orientation
    in (-pi, pi]. *)
Lemma constructed_orientation_in_range
  (position0 orientation0 destination0 dest_orientation0 dimensions0
     initial_speed : tensor R)
  (name0 : list string) (min_lidar max_lidar vision : R) (f : fleet) :
  __init__ position0 orientation0 destination0 dest_orientation0
           dimensions0 initial_speed name0 min_lidar max_lidar vision
  = Some f ->
  (forall x, In x (data (orientation f)) -> in_half_open_turn x)
  /\ (forall x, In x (data (dest_orientation f)) -> in_half_open_turn x).
Proof.
  unfold __init__. cbn [angle_normalize Utils_R]. unfold angle_normalize_spec.
  destruct (size 0 position0) as [n|]; [|discriminate].
  destruct (not_diag_ones (n * 4)) as [b|]; [|discriminate].
  destruct (reduce fadd (of_Z 0) 1 true _) as [sq|]; [|discriminate].
  destruct (unsqueeze 1 dimensions0) as [du|]; [|discriminate].
  destruct (zip_with fmul mul_factor du) as [prod|]; [|discriminate].
  match goal with
  | |- context [_get_coordinates ?s] =>
      destruct (_get_coordinates s) as [[c|] self'] eqn:E; [|discriminate];
      apply _get_coordinates_leaves_attribute in E; subst self'
  end.
  intros Hf. injection Hf as <-. cbn [orientation dest_orientation
    set_coordinates set_cached_coordinates tmap data].
  split; intros x Hx; apply in_map_iff in Hx; destruct Hx as [y [<- _]];
    apply normalize_angle_range.
Qed.

Example get_edges_parked_car :
  get_edges parked_car
  = (Some (coordinates parked_car,
           mkT [1; 8; 1]%nat [1; -1; -1; 1; 2; 2; -2; -2]), parked_car).
Proof. reflexivity. Qed.

End ConstructedInvariants.


(* ================================================================== *)
(** * get_state and update_state *)
(* ================================================================== *)

Section StateRoundTrip.
Context {A : Type} `{Scalar A} `{Utils A}.

Lemma cat_cols (t1 t2 : tensor A) (n a b : nat) :
  shape t1 = [n; a] -> shape t2 = [n; b] ->
  cat 1 t1 t2
  = Some (mkT [n; a + b]
              (map (cat_pick a b (data t1) (data t2)) (seq 0 (n * (a + b))))).
Proof.
  intros H1 H2. unfold cat, outer, inner, extent. rewrite H1, H2. cbn.
  rewrite Nat.eqb_refl. cbn. rewrite !Nat.mul_1_r. reflexivity.
Qed.

Lemma at2_cat_cols_left (l1 l2 : list A) (n a b v c : nat) :
  v < n -> c < a ->
  at2 (mkT [n; a + b] (map (cat_pick a b l1 l2) (seq 0 (n * (a + b))))) v c
  = nth (v * a + c) l1 dflt.
Proof.
  intros Hv Hc. rewrite (at2_rows _ n (a + b)) by reflexivity. cbn [data].
  rewrite nth_map_seq by nia. apply cat_pick_left. exact Hc.
Qed.

Lemma at2_cat_cols_right (l1 l2 : list A) (n a b v c : nat) :
  v < n -> c < b ->
  at2 (mkT [n; a + b] (map (cat_pick a b l1 l2) (seq 0 (n * (a + b)))))
      v (a + c)
  = nth (v * b + c) l2 dflt.
Proof.
  intros Hv Hc. rewrite (at2_rows _ n (a + b)) by reflexivity. cbn [data].
  rewrite nth_map_seq by nia. apply cat_pick_right. exact Hc.
Qed.

(** Two well-formed two-dimensional tensors with the same shape and the
    same entries are equal. *)
Lemma tensor_rows_eq (t1 t2 : tensor A) (n w : nat) :
  shape t1 = [n; w] -> shape t2 = [n; w] -> wf t1 -> wf t2 ->
  (forall v c, v < n -> c < w -> at2 t1 v c = at2 t2 v c) ->
  t1 = t2.
Proof.
  intros H1 H2 W1 W2 Hext.
  assert (Hl1 : length (data t1) = n * w).
  { unfold wf in W1. rewrite W1, H1. cbn. lia. }
  assert (Hl2 : length (data t2) = n * w).
  { unfold wf in W2. rewrite W2, H2. cbn. lia. }
  assert (Hd : data t1 = data t2).
  { apply (nth_ext _ _ dflt dflt); [lia|].
    intros i Hi. rewrite Hl1 in Hi.
    destruct (Nat.eq_dec w 0) as [->|Hw]; [lia|].
    assert (Hq : i / w < n) by (apply Nat.Div0.div_lt_upper_bound; lia).
    assert (Hr : i mod w < w) by (apply Nat.mod_upper_bound; exact Hw).
    specialize (Hext (i / w) (i mod w) Hq Hr).
    rewrite (at2_rows t1 n w) in Hext by exact H1.
    rewrite (at2_rows t2 n w) in Hext by exact H2.
    replace (i / w * w + i mod w) with i in Hext
      by (rewrite (Nat.div_mod_eq i w) at 1; lia).
    exact Hext. }
  destruct t1 as [s1 d1], t2 as [s2 d2]. cbn in *. subst. reflexivity.
Qed.

Lemma wf_map_seq {X} (s : list nat) (g : nat -> X) (m : nat) :
  m = numel s -> wf (mkT s (map g (seq 0 m))).
Proof.
  intros ->. unfold wf. cbn [data shape].
  rewrite length_map, length_seq. reflexivity.
Qed.

(** What [get_state] returns on a fleet whose position, speed and
    orientation have N rows of 2, 1 and 1 columns. *)
Lemma get_state_entries (f : fleet) (n : nat) :
  shape (position f) = [n; 2] ->
  shape (speed f) = [n; 1] ->
  shape (orientation f) = [n; 1] ->
  exists s,
    get_state f = (Some s, f)
    /\ shape s = [n; 4]
    /\ wf s
    /\ forall v, v < n ->
         at2 s v 0 = at2 (position f) v 0
         /\ at2 s v 1 = at2 (position f) v 1
         /\ at2 s v 2 = at2 (speed f) v 0
         /\ at2 s v 3 = at2 (orientation f) v 0.
Proof.
  intros Hp Hs Ho. unfold get_state, bind, read, lift.
  rewrite Hp. cbn [length Nat.sub].
  rewrite (cat_cols _ _ n 2 1 Hp Hs).
  set (ps := mkT [n; 2 + 1] _).
  change (length (shape ps) - 1) with 1.
  rewrite (cat_cols ps _ n (2 + 1) 1 eq_refl Ho).
  eexists. split; [reflexivity|]. split; [reflexivity|].
  split; [apply wf_map_seq; cbn; lia|].
  assert (Hps : forall v c, v < n -> c < 2 + 1 ->
            nth (v * (2 + 1) + c) (data ps) dflt = at2 ps v c).
  { intros v c Hv Hc. rewrite (at2_rows ps n (2 + 1)) by reflexivity.
    reflexivity. }
  intros v Hv.
  rewrite !(at2_rows (position f) n 2) by exact Hp.
  rewrite (at2_rows (speed f) n 1) by exact Hs.
  rewrite (at2_rows (orientation f) n 1) by exact Ho.
  repeat split.
  - rewrite (at2_cat_cols_left _ _ n (2 + 1) 1 v 0) by lia.
    rewrite Hps by lia. apply at2_cat_cols_left; lia.
  - rewrite (at2_cat_cols_left _ _ n (2 + 1) 1 v 1) by lia.
    rewrite Hps by lia. apply at2_cat_cols_left; lia.
  - rewrite (at2_cat_cols_left _ _ n (2 + 1) 1 v 2) by lia.
    rewrite Hps by lia. apply (at2_cat_cols_right _ _ n 2 1 v 0); lia.
  - apply (at2_cat_cols_right _ _ n (2 + 1) 1 v 0); lia.
Qed.

Lemma slice_cols_any (s : tensor A) (m k a b : nat) :
  shape s = [m; k] ->
  slice 1 a (Some b) s
  = Some (mkT [m; Nat.min b k - Nat.min a (Nat.min b k)]
              (gather (data s)
                 (m * (Nat.min b k - Nat.min a (Nat.min b k)))
                 (slice_index (Nat.min b k - Nat.min a (Nat.min b k)) k
                              (Nat.min a (Nat.min b k))))).
Proof.
  intros Hs. unfold slice, outer, inner, extent, numel. rewrite Hs.
  cbn -[Nat.min Nat.sub]. rewrite !Nat.mul_1_r. reflexivity.
Qed.

(** X1: after [update_state] on a state with N rows and at least four
    columns, [get_state] returns the first four columns of that state, and
    the state itself when it has exactly four columns. *)
Theorem get_state_after_update_state (f : fleet) (state : tensor A)
  (n k : nat) :
  shape state = [n; k] -> 4 <= k ->
  exists f1 s,
    update_state state f = (Some tt, f1)
    /\ get_state f1 = (Some s, f1)
    /\ shape s = [n; 4]
    /\ (forall v c, v < n -> c < 4 -> at2 s v c = at2 state v c)
    /\ (k = 4 -> wf state -> s = state).
Proof.
  intros Hs Hk.
  assert (Hrun : exists f1,
            update_state state f = (Some tt, f1)
            /\ position f1 = mkT [n; 2]
                 (gather (data state) (n * 2) (slice_index 2 k 0))
            /\ speed f1 = mkT [n; 1]
                 (gather (data state) (n * 1) (slice_index 1 k 2))
            /\ orientation f1 = mkT [n; 1]
                 (gather (data state) (n * 1) (slice_index 1 k 3))).
  { unfold update_state, bind, lift, assign.
    rewrite (slice_cols state n k 0 2 Hs) by lia.
    rewrite (slice_cols state n k 2 3 Hs) by lia.
    rewrite (slice_cols state n k 3 4 Hs) by lia.
    eexists. split; [reflexivity|]. repeat split; reflexivity. }
  destruct Hrun as [f1 [Hu [Hp [Hsp Ho]]]].
  destruct (get_state_entries f1 n) as [s [Hg [Hss [Hw Hent]]]].
  { rewrite Hp; reflexivity. }
  { rewrite Hsp; reflexivity. }
  { rewrite Ho; reflexivity. }
  assert (Hcols : forall v c, v < n -> c < 4 -> at2 s v c = at2 state v c).
  { intros v c Hv Hc. destruct (Hent v Hv) as [E0 [E1 [E2 E3]]].
    rewrite Hp in E0, E1. rewrite Hsp in E2. rewrite Ho in E3.
    rewrite (at2_slice_cols state n k 0 2 v 0 Hs Hv) in E0 by lia.
    rewrite (at2_slice_cols state n k 0 2 v 1 Hs Hv) in E1 by lia.
    rewrite (at2_slice_cols state n k 2 1 v 0 Hs Hv) in E2 by lia.
    rewrite (at2_slice_cols state n k 3 1 v 0 Hs Hv) in E3 by lia.
    destruct c as [|[|[|[|c]]]]; [exact E0|exact E1|exact E2|exact E3|lia]. }
  exists f1, s. split; [exact Hu|]. split; [exact Hg|]. split; [exact Hss|].
  split; [exact Hcols|].
  intros -> Hwf. apply (tensor_rows_eq s state n 4); assumption.
Qed.

(** X2: on a fleet whose position, speed and orientation are well formed
    with N rows, feeding the result of [get_state] to [update_state]
    changes nothing but the cache flag, which is cleared. *)
Theorem update_state_of_get_state (f : fleet) (n : nat) :
  shape (position f) = [n; 2] -> wf (position f) ->
  shape (speed f) = [n; 1] -> wf (speed f) ->
  shape (orientation f) = [n; 1] -> wf (orientation f) ->
  exists s,
    get_state f = (Some s, f)
    /\ update_state s f = (Some tt, set_cached_coordinates false f).
Proof.
  intros Hp Wp Hs Ws Ho Wo.
  destruct (get_state_entries f n Hp Hs Ho) as [s [Hg [Hss [Hw Hent]]]].
  exists s. split; [exact Hg|].
  unfold update_state, bind, lift, assign.
  rewrite (slice_cols s n 4 0 2 Hss) by lia.
  rewrite (slice_cols s n 4 2 3 Hss) by lia.
  rewrite (slice_cols s n 4 3 4 Hss) by lia.
  cbn [Nat.sub].
  assert (Ep : mkT [n; 2] (gather (data s) (n * 2) (slice_index 2 4 0))
               = position f).
  { apply (tensor_rows_eq _ _ n 2); [reflexivity|exact Hp| |exact Wp|].
    - unfold gather. apply wf_map_seq. cbn. lia.
    - intros v c Hv Hc. destruct (Hent v Hv) as [E0 [E1 _]].
      rewrite (at2_slice_cols s n 4 0 2 v c Hss Hv Hc).
      destruct c as [|[|c]]; [exact E0|exact E1|lia]. }
  assert (Es : mkT [n; 1] (gather (data s) (n * 1) (slice_index 1 4 2))
               = speed f).
  { apply (tensor_rows_eq _ _ n 1); [reflexivity|exact Hs| |exact Ws|].
    - unfold gather. apply wf_map_seq. cbn. lia.
    - intros v c Hv Hc. destruct (Hent v Hv) as [_ [_ [E2 _]]].
      rewrite (at2_slice_cols s n 4 2 1 v c Hss Hv Hc).
      destruct c as [|c]; [exact E2|lia]. }
  assert (Eo : mkT [n; 1] (gather (data s) (n * 1) (slice_index 1 4 3))
               = orientation f).
  { apply (tensor_rows_eq _ _ n 1); [reflexivity|exact Ho| |exact Wo|].
    - unfold gather. apply wf_map_seq. cbn. lia.
    - intros v c Hv Hc. destruct (Hent v Hv) as [_ [_ [_ E3]]].
      rewrite (at2_slice_cols s n 4 3 1 v c Hss Hv Hc).
      destruct c as [|c]; [exact E3|lia]. }
  rewrite Ep, Es, Eo. destruct f. reflexivity.
Qed.

(** X3: [get_state] raises, and leaves the fleet as it was, when the
    speed does not have as many rows as the position; the constructor
    accepts such a speed. *)
Theorem get_state_raises_on_row_mismatch (f : fleet) (n m a b : nat) :
  shape (position f) = [n; a] ->
  shape (speed f) = [m; b] ->
  n <> m ->
  get_state f = (None, f).
Proof.
  intros Hp Hs Hne. unfold get_state, bind, read, lift.
  rewrite Hp. cbn [length Nat.sub].
  assert (Hcat : cat 1 (position f) (speed f) = None).
  { unfold cat. rewrite Hp, Hs. cbn.
    apply Nat.eqb_neq in Hne. rewrite Hne. reflexivity. }
  rewrite Hcat. reflexivity.
Qed.

(** X4: [update_state] accepts every two-dimensional state, also one
    with fewer than four columns: Python clips the slices, and the
    attributes get the columns that exist, none if there is none. *)
Theorem update_state_clips_missing_columns (f : fleet) (state : tensor A)
  (m k : nat) :
  shape state = [m; k] ->
  exists f',
    update_state state f = (Some tt, f')
    /\ shape (position f') = [m; Nat.min 2 k]
    /\ shape (speed f') = [m; Nat.min 3 k - Nat.min 2 k]
    /\ shape (orientation f') = [m; Nat.min 4 k - Nat.min 3 k]
    /\ cached_coordinates f' = false.
Proof.
  intros Hs. unfold update_state, bind, lift, assign.
  rewrite (slice_cols_any state m k 0 2 Hs).
  rewrite (slice_cols_any state m k 2 3 Hs).
  rewrite (slice_cols_any state m k 3 4 Hs).
  eexists. split; [reflexivity|]. cbn [position speed orientation shape
    set_position set_speed set_orientation set_cached_coordinates
    cached_coordinates].
  repeat split; f_equal; f_equal; lia.
Qed.

(** X5: [update_state] is all or nothing: on a tensor with fewer than two
    dimensions the first assignment already raises and no attribute
    changes. *)
Theorem update_state_raises_untouched (f : fleet) (state : tensor A) :
  length (shape state) < 2 ->
  update_state state f = (None, f).
Proof.
  intros Hr. unfold update_state, bind, lift, slice.
  assert (Hlt : (1 <? length (shape state)) = false)
    by (apply Nat.ltb_ge; lia).
  rewrite Hlt. reflexivity.
Qed.

End StateRoundTrip.

(* ================================================================== *)
(** * What the queries change *)
(* ================================================================== *)

Section QueryFrames.
Context {A : Type} `{Scalar A} `{Utils A}.

Lemma get_coordinates_state (f f' : fleet) (r : option (tensor A)) :
  get_coordinates f = (r, f') ->
  f' = if cached_coordinates f then f else set_cached_coordinates true f.
Proof.
  unfold get_coordinates, bind, read.
  destruct (cached_coordinates f).
  - intros E. injection E as _ <-. reflexivity.
  - apply _get_coordinates_leaves_attribute.
Qed.

Lemma get_edges_state (f f' : fleet) (r : option (tensor A * tensor A)) :
  get_edges f = (r, f') ->
  f' = if cached_coordinates f then f else set_cached_coordinates true f.
Proof.
  unfold get_edges, bind, lift, ret.
  destruct (get_coordinates f) as [[c|] f1] eqn:E;
    apply get_coordinates_state in E; rewrite <- E.
  - destruct (slice 2 1 None c); [|intros X; injection X as _ <-; reflexivity].
    destruct (slice 2 0 (Some 1) c);
      [|intros X; injection X as _ <-; reflexivity].
    destruct (cat 1 _ _); intros X; injection X as _ <-; reflexivity.
  - intros X; injection X as _ <-; reflexivity.
Qed.

(** X6: [collision_check], whether it returns or raises, changes no
    attribute of the fleet other than the cache flag, which it sets when
    it was clear; position, orientation and the attribute [coordinates]
    stay as they were. *)
Theorem collision_check_changes_only_cache_flag (f : fleet) :
  snd (collision_check f)
  = if cached_coordinates f then f else set_cached_coordinates true f.
Proof.
  unfold collision_check, bind, lift, read.
  destruct (get_edges f) as [[e|] f1] eqn:E;
    apply get_edges_state in E; rewrite <- E; [|reflexivity].
  destruct (view [None; Some 2] (fst e)); [|reflexivity].
  destruct (view [None; Some 2] (snd e)); [|reflexivity].
  destruct (check_intersection_lines _ _ _ _); [|reflexivity].
  destruct (zip_with andb _ _); [|reflexivity].
  destruct (view [Some (nbatch f1); Some 4; None] _); [|reflexivity].
  destruct (reduce orb false 1 false _); reflexivity.
Qed.

(** X7: [get_state], [distance_from_point], [distance_from_destination],
    [optimal_heading_to_point] and [optimal_heading] never assign an
    attribute, whether they return or raise. *)
Theorem pure_queries_leave_fleet (f : fleet) (point : tensor A) :
  snd (get_state f) = f
  /\ snd (distance_from_point point f) = f
  /\ snd (distance_from_destination f) = f
  /\ snd (optimal_heading_to_point point f) = f
  /\ snd (optimal_heading f) = f.
Proof.
  assert (Hd : forall p, snd (distance_from_point p f) = f).
  { intros p. unfold distance_from_point, bind, read, lift, ret.
    destruct (zip_with fsub (position f) p); [|reflexivity].
    destruct (reduce fadd (of_Z 0) 1 true _); reflexivity. }
  assert (Hh : forall p, snd (optimal_heading_to_point p f) = f).
  { intros p. unfold optimal_heading_to_point, bind, read, lift.
    destruct (zip_with fsub p (position f)); [|reflexivity].
    destruct (norm_dim1 _); [|reflexivity].
    destruct (zip_with fdiv _ _); [|reflexivity].
    destruct (cat 0 _ _); [|reflexivity].
    destruct (zip_with fmul _ _); [|reflexivity].
    destruct (reduce fadd (of_Z 0) 1 true _); reflexivity. }
  split.
  { unfold get_state, bind, read, lift.
    destruct (cat _ (position f) (speed f)); reflexivity. }
  split; [apply Hd|]. split; [apply Hd|]. split; [apply Hh|apply Hh].
Qed.

(** X8: when the recomputation inside [get_coordinates] raises, the
    cache flag has already been set: the next [get_coordinates] does not
    raise again but returns the attribute [coordinates] as it was before
    the failed call. *)
Theorem get_coordinates_after_failed_recomputation (f f' : fleet) :
  get_coordinates f = (None, f') ->
  cached_coordinates f = false
  /\ f' = set_cached_coordinates true f
  /\ get_coordinates f' = (Some (coordinates f), f').
Proof.
  intros Hg. assert (Hst := get_coordinates_state f f' None Hg).
  destruct (cached_coordinates f) eqn:Hc.
  - exfalso. revert Hg. unfold get_coordinates, bind, read. rewrite Hc.
    discriminate.
  - split; [reflexivity|]. split; [exact Hst|]. subst f'.
    reflexivity.
Qed.

End QueryFrames.

(* ================================================================== *)
(** * Distances *)
(* ================================================================== *)

Section DistanceFacts.
Context {A : Type} `{Scalar A} `{Utils A}.

Lemma bindex_same_rows (n w k : nat) :
  k < n * w -> bindex [n; w] [n; w] k = k.
Proof.
  intros Hk. unfold bindex, pad_shape, map2. cbn.
  rewrite !Nat.mul_1_r, Nat.div_1_r.
  assert (Hdm := Nat.div_mod_eq k w).
  destruct (Nat.eq_dec w 0) as [->|Hw]; [lia|].
  assert (Hq : k / w < n) by (apply Nat.Div0.div_lt_upper_bound; lia).
  assert (Hr : k mod w < w) by (apply Nat.mod_upper_bound; exact Hw).
  destruct (Nat.eqb_spec n 1) as [->|Hn];
    destruct (Nat.eqb_spec w 1) as [->|Hw1]; cbn; nia.
Qed.

Lemma zip_with_same_rows {X Y Z} `{Default X} `{Default Y}
  (g : X -> Y -> Z) (t1 : tensor X) (t2 : tensor Y) (n w : nat) :
  shape t1 = [n; w] -> shape t2 = [n; w] ->
  zip_with g t1 t2
  = Some (mkT [n; w]
              (map (fun k => g (nth k (data t1) dflt) (nth k (data t2) dflt))
                   (seq 0 (n * w)))).
Proof.
  intros Hs1 Hs2. unfold zip_with, bshape, pad_shape. rewrite Hs1, Hs2. cbn.
  rewrite !Nat.eqb_refl.
  replace (numel [n; w]) with (n * w) by (cbn; lia).
  f_equal. f_equal. apply map_ext_in. intros k Hk. apply in_seq in Hk.
  rewrite bindex_same_rows by lia. reflexivity.
Qed.

Lemma bshape_rows_vector (n : nat) : bshape [n; 2] [2] = Some [n; 2].
Proof.
  unfold bshape, pad_shape. cbn. destruct (n =? 1) eqn:E; [|reflexivity].
  apply Nat.eqb_eq in E. subst. reflexivity.
Qed.

Lemma bindex_vector_in_rows (n k : nat) :
  bindex [2] [n; 2] k = k mod 2.
Proof.
  unfold bindex, pad_shape, map2. cbn. rewrite Nat.div_1_r. lia.
Qed.

Lemma zip_with_rows_vector {X Y Z} `{Default X} `{Default Y}
  (g : X -> Y -> Z) (t1 : tensor X) (t2 : tensor Y) (n : nat) :
  shape t1 = [n; 2] -> shape t2 = [2] ->
  zip_with g t1 t2
  = Some (mkT [n; 2]
              (map (fun k => g (nth k (data t1) dflt)
                               (nth (k mod 2) (data t2) dflt))
                   (seq 0 (n * 2)))).
Proof.
  intros Hs1 Hs2. unfold zip_with. rewrite Hs1, Hs2, bshape_rows_vector.
  replace (numel [n; 2]) with (n * 2) by (cbn; lia).
  f_equal. f_equal. apply map_ext_in. intros k Hk. apply in_seq in Hk.
  rewrite bindex_same_rows by lia. rewrite bindex_vector_in_rows.
  reflexivity.
Qed.

Lemma reduce_sum_pairs (keep : bool) (t : tensor A) (n : nat) :
  shape t = [n; 2] ->
  reduce fadd (of_Z 0) 1 keep t
  = Some (mkT (n :: (if keep then [1] else []))
              (map (fun v => fadd (fadd (of_Z 0) (nth (v * 2) (data t) dflt))
                                  (nth (v * 2 + 1) (data t) dflt))
                   (seq 0 n))).
Proof.
  intros Hs. unfold reduce, outer, inner, extent. rewrite Hs. cbn.
  rewrite !Nat.mul_1_r, app_nil_r. f_equal. f_equal.
  apply map_ext. intros v. unfold gather. cbn [seq map fold_left].
  assert (Hix : forall lo, slice_index 1 2 lo v = v * 2 + lo).
  { intros lo. replace v with (v * 1 + 0) at 1 by lia.
    rewrite slice_index_lin by lia. lia. }
  rewrite !Hix. do 2 f_equal; f_equal; lia.
Qed.

Lemma distance_run (p q : tensor A) (n : nat) (qx qy : nat -> A) :
  shape p = [n; 2] ->
  (exists d, zip_with fsub p q = Some (mkT [n; 2] d)
             /\ forall v, v < n ->
                  nth (v * 2) d dflt = fsub (at2 p v 0) (qx v)
                  /\ nth (v * 2 + 1) d dflt = fsub (at2 p v 1) (qy v)) ->
  forall f, position f = p ->
  exists r,
    distance_from_point q f = (Some r, f)
    /\ shape r = [n; 1]
    /\ forall v, v < n ->
         at2 r v 0
         = fsqrt (fadd (fadd (of_Z 0)
                          (fmul (fsub (at2 p v 0) (qx v))
                                (fsub (at2 p v 0) (qx v))))
                       (fmul (fsub (at2 p v 1) (qy v))
                             (fsub (at2 p v 1) (qy v)))).
Proof.
  intros Hp [d [Hz Hd]] f Hf.
  unfold distance_from_point, bind, read, lift, ret. rewrite Hf, Hz.
  rewrite (reduce_sum_pairs true _ n) by reflexivity.
  eexists. split; [reflexivity|]. split; [reflexivity|].
  intros v Hv. rewrite (at2_rows _ n 1) by reflexivity.
  cbn [tmap data]. rewrite map_map.
  replace (v * 1 + 0) with v by lia. rewrite nth_map_seq by exact Hv.
  destruct (Hd v Hv) as [Ex Ey].
  rewrite (nth_indep _ dflt (fmul dflt dflt)), (map_nth (fun x => fmul x x)).
  - rewrite (nth_indep (map _ d) dflt (fmul dflt dflt)),
      (map_nth (fun x => fmul x x)).
    + rewrite Ex, Ey. reflexivity.
    + rewrite length_map.
      assert (Hl : length d = n * 2).
      { revert Hz. unfold zip_with.
        destruct (bshape (shape p) (shape q)); [|discriminate].
        intros E. injection E as -> <-.
        rewrite length_map, length_seq. cbn. lia. }
      lia.
  - rewrite length_map.
    assert (Hl : length d = n * 2).
    { revert Hz. unfold zip_with.
      destruct (bshape (shape p) (shape q)); [|discriminate].
      intros E. injection E as -> <-.
      rewrite length_map, length_seq. cbn. lia. }
    lia.
Qed.

(** Row by row, what [distance_from_point] computes on N x 2 inputs. *)
Lemma distance_from_point_rows (f : fleet) (point : tensor A)
  (n : nat) :
  shape (position f) = [n; 2] -> shape point = [n; 2] ->
  exists r,
    distance_from_point point f = (Some r, f)
    /\ shape r = [n; 1]
    /\ forall v, v < n ->
         at2 r v 0
         = fsqrt (fadd (fadd (of_Z 0)
                          (fmul (fsub (at2 (position f) v 0) (at2 point v 0))
                                (fsub (at2 (position f) v 0) (at2 point v 0))))
                       (fmul (fsub (at2 (position f) v 1) (at2 point v 1))
                             (fsub (at2 (position f) v 1) (at2 point v 1)))).
Proof.
  intros Hp Hq.
  apply (distance_run (position f) point n
           (fun v => at2 point v 0) (fun v => at2 point v 1) Hp);
    [|reflexivity].
  rewrite (zip_with_same_rows fsub _ _ n 2 Hp Hq).
  eexists. split; [reflexivity|].
  intros v Hv. rewrite !(at2_rows (position f) n 2) by exact Hp.
  rewrite !(at2_rows point n 2) by exact Hq.
  rewrite !nth_map_seq by lia.
  replace (v * 2 + 0) with (v * 2) by lia. split; reflexivity.
Qed.

(** X9: with a position and a point of N rows and 2 columns,
    [distance_from_point] returns an N x 1 tensor whose row v is the
    square root of the sum, started from zero, of the squared coordinate
    differences of vehicle v and point v. *)
Theorem distance_from_point_per_vehicle (f : fleet) (point : tensor A)
  (n : nat) :
  shape (position f) = [n; 2] -> shape point = [n; 2] ->
  exists r,
    distance_from_point point f = (Some r, f)
    /\ shape r = [n; 1]
    /\ forall v, v < n ->
         at2 r v 0
         = fsqrt (fadd (fadd (of_Z 0)
                          (fmul (fsub (at2 (position f) v 0) (at2 point v 0))
                                (fsub (at2 (position f) v 0) (at2 point v 0))))
                       (fmul (fsub (at2 (position f) v 1) (at2 point v 1))
                             (fsub (at2 (position f) v 1) (at2 point v 1)))).
Proof.
  exact (distance_from_point_rows f point n).
Qed.

(** X10: a single point of shape (2,) is broadcast: row v of the result
    is the distance of vehicle v from that one point. *)
Theorem distance_from_point_broadcast (f : fleet) (point : tensor A)
  (n : nat) :
  shape (position f) = [n; 2] -> shape point = [2] ->
  exists r,
    distance_from_point point f = (Some r, f)
    /\ shape r = [n; 1]
    /\ forall v, v < n ->
         at2 r v 0
         = fsqrt (fadd (fadd (of_Z 0)
                          (fmul (fsub (at2 (position f) v 0) (at1 point 0))
                                (fsub (at2 (position f) v 0) (at1 point 0))))
                       (fmul (fsub (at2 (position f) v 1) (at1 point 1))
                             (fsub (at2 (position f) v 1) (at1 point 1)))).
Proof.
  intros Hp Hq.
  apply (distance_run (position f) point n
           (fun _ => at1 point 0) (fun _ => at1 point 1) Hp);
    [|reflexivity].
  rewrite (zip_with_rows_vector fsub _ _ n Hp Hq).
  eexists. split; [reflexivity|].
  intros v Hv. rewrite !(at2_rows (position f) n 2) by exact Hp.
  unfold at1. rewrite !nth_map_seq by lia.
  replace (v * 2 + 0) with (v * 2) by lia.
  replace ((v * 2) mod 2) with 0 by (rewrite Nat.Div0.mod_mul; reflexivity).
  replace ((v * 2 + 1) mod 2) with 1
    by (symmetry; apply (div_mod_lin v 2 1); lia).
  split; reflexivity.
Qed.

Lemma zip_with_shape {X Y Z} `{Default X} `{Default Y}
  (g : X -> Y -> Z) (t1 : tensor X) (t2 : tensor Y) (r : tensor Z) :
  zip_with g t1 t2 = Some r -> bshape (shape t1) (shape t2) = Some (shape r).
Proof.
  unfold zip_with. destruct (bshape (shape t1) (shape t2)); [|discriminate].
  intros E. injection E as <-. reflexivity.
Qed.

Lemma zip_with_raises {X Y Z} `{Default X} `{Default Y}
  (g : X -> Y -> Z) (t1 : tensor X) (t2 : tensor Y) :
  bshape (shape t1) (shape t2) = None -> zip_with g t1 t2 = None.
Proof. unfold zip_with. intros ->. reflexivity. Qed.

Lemma cat_rows_shape (t1 t2 r : tensor A) (a b w : nat) :
  shape t1 = [a; w] -> shape t2 = [b; w] ->
  cat 0 t1 t2 = Some r -> shape r = [a + b; w].
Proof.
  intros Hs1 Hs2. unfold cat. rewrite Hs1, Hs2. cbn.
  rewrite Nat.eqb_refl. cbn. intros E. injection E as <-. reflexivity.
Qed.

(** X11: [optimal_heading_to_point] raises for every fleet that does
    not have exactly one vehicle: the norm loses its second axis and the
    heading components are stacked on axis 0, so the division or the
    product cannot broadcast. *)
Theorem optimal_heading_to_point_raises (f : fleet) (point : tensor A)
  (n : nat) :
  shape (position f) = [n; 2] ->
  shape point = [n; 2] ->
  shape (orientation f) = [n; 1] ->
  n <> 1 ->
  optimal_heading_to_point point f = (None, f).
Proof.
  intros Hp Hq Ho Hn.
  unfold optimal_heading_to_point, bind, read, lift.
  rewrite (zip_with_same_rows fsub _ _ n 2 Hq Hp).
  unfold norm_dim1. cbn [tmap shape data].
  rewrite (reduce_sum_pairs false _ n) by reflexivity.
  cbn [option_map].
  match goal with
  | |- context [zip_with fdiv ?v ?d] =>
      destruct (zip_with fdiv v d) as [q|] eqn:Eq; [|reflexivity];
      apply zip_with_shape in Eq; cbn [shape tmap] in Eq
  end.
  destruct n as [|[|[|n]]]; [discriminate Eq | lia | | discriminate Eq].
  assert (Hsq : shape q = [2; 2]) by (injection Eq as <-; reflexivity).
  destruct (cat 0 (tmap fcos (orientation f)) (tmap fsin (orientation f)))
    as [cv|] eqn:Ec; [|reflexivity].
  apply (cat_rows_shape (tmap fcos (orientation f))
           (tmap fsin (orientation f)) cv 2 2 1 Ho Ho) in Ec.
  rewrite zip_with_raises; [reflexivity|].
  rewrite Hsq, Ec. reflexivity.
Qed.

(** X12: the constructor raises when [position] has no axis, since N is
    read from its first axis, and when [dimensions] has fewer than two
    axes, since the sum over axis 1 that gives the safety radius does not
    exist; this holds whatever the helper functions do. *)
Theorem construction_raises_on_missing_axes
  (position0 orientation0 destination0 dest_orientation0 dimensions0
     initial_speed : tensor A)
  (name0 : list string) (min_lidar max_lidar vision : A) :
  shape position0 = [] \/ length (shape dimensions0) < 2 ->
  __init__ position0 orientation0 destination0 dest_orientation0
           dimensions0 initial_speed name0 min_lidar max_lidar vision
  = None.
Proof.
  intros Hr. unfold __init__.
  destruct (angle_normalize orientation0); [|reflexivity].
  destruct (angle_normalize dest_orientation0); [|reflexivity].
  destruct Hr as [Hp|Hd].
  - unfold size. rewrite Hp. reflexivity.
  - destruct (size 0 position0); [|reflexivity].
    destruct (not_diag_ones _); [|reflexivity].
    unfold reduce. cbn [tmap shape].
    assert (Hlt : (1 <? length (shape dimensions0)) = false)
      by (apply Nat.ltb_ge; lia).
    rewrite Hlt. reflexivity.
Qed.

End DistanceFacts.

(* ================================================================== *)
(** * What the constructor derives from the dimensions *)
(* ================================================================== *)

Section ConstructedGeometry.
Context {A : Type} `{Scalar A} `{Utils A}.

Lemma at3_corners_any (t : tensor A) (n v c a : nat) :
  shape t = [n; 4; 2] ->
  at3 t v c a = nth (v * 8 + c * 2 + a) (data t) dflt.
Proof. intros Hs. unfold at3. rewrite Hs. cbn. f_equal. lia. Qed.

Lemma bshape_mul_factor (n : nat) :
  bshape [1; 4; 2] [n; 1; 2] = Some [n; 4; 2].
Proof. unfold bshape, pad_shape. cbn. destruct n as [|[|n]]; reflexivity. Qed.

Lemma bindex_corner (n v c a : nat) :
  v < n -> c < 4 -> a < 2 ->
  bindex [1; 4; 2] [n; 4; 2] (v * 8 + c * 2 + a) = c * 2 + a
  /\ bindex [n; 1; 2] [n; 4; 2] (v * 8 + c * 2 + a) = v * 2 + a.
Proof.
  intros Hv Hc Ha. unfold bindex, pad_shape, map2. cbn.
  replace (v * 8 + c * 2 + a) with (v * 8 + (c * 2 + a)) by lia.
  destruct (div_mod_lin v 8 (c * 2 + a) ltac:(lia)) as [-> ->].
  destruct (div_mod_lin c 2 a Ha) as [-> ->].
  rewrite Nat.div_1_r.
  split; [lia|].
  destruct (Nat.eqb_spec n 1) as [->|Hn]; lia.
Qed.

(** The attributes that [__init__] derives from [dimensions], entry by
    entry. *)
Lemma construction_geometry
  (position0 orientation0 destination0 dest_orientation0 dimensions0
     initial_speed : tensor A)
  (name0 : list string) (min_lidar max_lidar vision : A) (f : fleet)
  (n : nat) :
  __init__ position0 orientation0 destination0 dest_orientation0
           dimensions0 initial_speed name0 min_lidar max_lidar vision
  = Some f ->
  shape dimensions0 = [n; 2] -> wf dimensions0 ->
  shape (base_coordinates f) = [n; 4; 2]
  /\ shape (safety_circle f) = [n; 1]
  /\ shape (area f) = [n; 1]
  /\ forall v, v < n ->
       (forall c a, c < 4 -> a < 2 ->
          at3 (base_coordinates f) v c a
          = fdiv (fmul (nth (c * 2 + a)
                            (map of_Z [1; 1; 1; -1; -1; -1; -1; 1]%Z) dflt)
                       (at2 dimensions0 v a))
                 (of_Z 2))
       /\ at2 (safety_circle f) v 0
          = fmul lit_1_3
              (fsqrt (fadd (fadd (of_Z 0)
                              (fmul (fdiv (at2 dimensions0 v 0) (of_Z 2))
                                    (fdiv (at2 dimensions0 v 0) (of_Z 2))))
                           (fmul (fdiv (at2 dimensions0 v 1) (of_Z 2))
                                 (fdiv (at2 dimensions0 v 1) (of_Z 2)))))
       /\ at2 (area f) v 0
          = fmul math_pi (fmul (at2 (safety_circle f) v 0)
                               (at2 (safety_circle f) v 0)).
Proof.
  intros Hinit Hd Hw. revert Hinit. unfold __init__.
  destruct (angle_normalize orientation0) as [o|]; [|discriminate].
  destruct (angle_normalize dest_orientation0) as [d_o|]; [|discriminate].
  destruct (size 0 position0) as [nb|]; [|discriminate].
  destruct (not_diag_ones (nb * 4)) as [buffer|]; [|discriminate].
  rewrite (reduce_sum_pairs true _ n) by exact Hd.
  unfold unsqueeze. rewrite Hd. cbn [length Nat.leb firstn skipn app].
  unfold zip_with. cbn [shape mul_factor]. rewrite bshape_mul_factor.
  match goal with
  | |- context [_get_coordinates ?s] =>
      destruct (_get_coordinates s) as [[c|] self'] eqn:E; [|discriminate];
      apply _get_coordinates_leaves_attribute in E; subst self'
  end.
  intros Hf. injection Hf as <-.
  cbn [base_coordinates safety_circle area set_coordinates
       set_cached_coordinates tmap shape data].
  split; [reflexivity|]. split; [reflexivity|]. split; [reflexivity|].
  intros v Hv.
  assert (Hl : length (data dimensions0) = n * 2).
  { unfold wf in Hw. rewrite Hw, Hd. cbn. lia. }
  assert (Hhalf : forall a, a < 2 ->
            nth (v * 2 + a)
                (map (fun x => fmul x x)
                     (map (fun x => fdiv x (of_Z 2)) (data dimensions0))) dflt
            = fmul (fdiv (at2 dimensions0 v a) (of_Z 2))
                   (fdiv (at2 dimensions0 v a) (of_Z 2))).
  { intros a Ha. rewrite map_map.
    rewrite (nth_indep _ dflt
               ((fun x => fmul (fdiv x (of_Z 2)) (fdiv x (of_Z 2))) dflt))
      by (rewrite length_map; lia).
    rewrite (map_nth (fun x => fmul (fdiv x (of_Z 2)) (fdiv x (of_Z 2)))).
    rewrite (at2_rows dimensions0 n 2) by exact Hd. reflexivity. }
  assert (Hsc : forall (g : A -> A),
            at2 (mkT [n; 1]
                   (map g
                      (map (fun v0 =>
                              fadd (fadd (of_Z 0)
                                      (nth (v0 * 2)
                                         (map (fun x => fmul x x)
                                            (map (fun x => fdiv x (of_Z 2))
                                               (data dimensions0))) dflt))
                                   (nth (v0 * 2 + 1)
                                      (map (fun x => fmul x x)
                                         (map (fun x => fdiv x (of_Z 2))
                                            (data dimensions0))) dflt))
                           (seq 0 n)))) v 0
            = g (fadd (fadd (of_Z 0)
                         (fmul (fdiv (at2 dimensions0 v 0) (of_Z 2))
                               (fdiv (at2 dimensions0 v 0) (of_Z 2))))
                      (fmul (fdiv (at2 dimensions0 v 1) (of_Z 2))
                            (fdiv (at2 dimensions0 v 1) (of_Z 2))))).
  { intros g. rewrite (at2_rows _ n 1) by reflexivity. cbn [data].
    rewrite (map_map _ g). replace (v * 1 + 0) with v by lia.
    rewrite nth_map_seq by exact Hv.
    rewrite <- (Hhalf 0) by lia. rewrite <- (Hhalf 1) by lia.
    replace (v * 2 + 0) with (v * 2) by lia. reflexivity. }
  split; [|split].
  - intros c0 a Hc Ha. rewrite (at3_corners_any _ n v c0 a) by reflexivity.
    unfold tmap. cbn [data]. rewrite map_map.
    rewrite nth_map_seq by (cbn; lia).
    destruct (bindex_corner n v c0 a Hv Hc Ha) as [-> ->].
    rewrite (at2_rows dimensions0 n 2) by exact Hd. reflexivity.
  - unfold tmap. cbn [shape data].
    apply (Hsc (fun x => fmul lit_1_3 (fsqrt x))).
  - unfold tmap. cbn [shape data].
    rewrite !(Hsc (fun x => fmul lit_1_3 (fsqrt x))).
    rewrite map_map.
    apply (Hsc (fun x => fmul math_pi
                           (fmul (fmul lit_1_3 (fsqrt x))
                                 (fmul lit_1_3 (fsqrt x))))).
Qed.

End ConstructedGeometry.

(* ================================================================== *)
(** * The derived geometry and the distances over the reals *)
(* ================================================================== *)

Section RealGeometry.
Import RealModel.
Local Open Scope R_scope.
Context (helpers : Utils R).

(** X13: for every vehicle of a constructed fleet, the base corners are
    (l/2, w/2), (l/2, -w/2), (-l/2, -w/2), (-l/2, w/2) in this order, the
    safety radius is 1.3 times half the diagonal, and the safety area is
    pi times the squared radius, whatever the helper functions are. *)
Theorem constructed_rectangle_and_safety_circle
  (position0 orientation0 destination0 dest_orientation0 dimensions0
     initial_speed : tensor R)
  (name0 : list string) (min_lidar max_lidar vision : R) (f : fleet)
  (n : nat) :
  @__init__ R Scalar_R helpers position0 orientation0 destination0
            dest_orientation0 dimensions0 initial_speed name0
            min_lidar max_lidar vision = Some f ->
  shape dimensions0 = [n; 2%nat] -> wf dimensions0 ->
  forall v, (v < n)%nat ->
    let l := at2 dimensions0 v 0 in
    let w := at2 dimensions0 v 1 in
    at3 (base_coordinates f) v 0 0 = l / 2
    /\ at3 (base_coordinates f) v 0 1 = w / 2
    /\ at3 (base_coordinates f) v 1 0 = l / 2
    /\ at3 (base_coordinates f) v 1 1 = - w / 2
    /\ at3 (base_coordinates f) v 2 0 = - l / 2
    /\ at3 (base_coordinates f) v 2 1 = - w / 2
    /\ at3 (base_coordinates f) v 3 0 = - l / 2
    /\ at3 (base_coordinates f) v 3 1 = w / 2
    /\ at2 (safety_circle f) v 0
       = 13 / 10 * sqrt (l / 2 * (l / 2) + w / 2 * (w / 2))
    /\ at2 (area f) v 0
       = PI * (at2 (safety_circle f) v 0 * at2 (safety_circle f) v 0).
Proof.
  intros Hinit Hd Hw v Hv l w.
  destruct (construction_geometry _ _ _ _ _ _ _ _ _ _ f n Hinit Hd Hw)
    as [_ [_ [_ Hgeo]]].
  destruct (Hgeo v Hv) as [Hb [Hsc Har]].
  assert (B : forall c a, (c < 4)%nat -> (a < 2)%nat ->
            at3 (base_coordinates f) v c a
            = nth (c * 2 + a) [1; 1; 1; -1; -1; -1; -1; 1] 0
              * at2 dimensions0 v a / 2).
  { intros c a Hc Ha. rewrite (Hb c a Hc Ha).
    cbn [fdiv fmul of_Z Scalar_R map].
    destruct c as [|[|[|[|c]]]]; [| | | |lia];
      (destruct a as [|[|a]]; [| |lia]); reflexivity. }
  repeat split.
  1-8: rewrite B by lia; cbn [nth Nat.mul Nat.add]; fold l; fold w; lra.
  - rewrite Hsc. cbn [fadd fmul fdiv fsqrt of_Z lit_1_3 Scalar_R].
    fold l. fold w. do 2 f_equal. lra.
  - rewrite Har. reflexivity.
Qed.

(** X14: every base corner of a constructed vehicle lies inside its
    safety circle centred at the vehicle: the squared length of the
    corner offset is at most the squared safety radius, which is not
    negative. *)
Theorem base_corners_inside_safety_circle
  (position0 orientation0 destination0 dest_orientation0 dimensions0
     initial_speed : tensor R)
  (name0 : list string) (min_lidar max_lidar vision : R) (f : fleet)
  (n : nat) :
  @__init__ R Scalar_R helpers position0 orientation0 destination0
            dest_orientation0 dimensions0 initial_speed name0
            min_lidar max_lidar vision = Some f ->
  shape dimensions0 = [n; 2%nat] -> wf dimensions0 ->
  forall v c, (v < n)%nat -> (c < 4)%nat ->
    0 <= at2 (safety_circle f) v 0
    /\ at3 (base_coordinates f) v c 0 * at3 (base_coordinates f) v c 0
       + at3 (base_coordinates f) v c 1 * at3 (base_coordinates f) v c 1
       <= at2 (safety_circle f) v 0 * at2 (safety_circle f) v 0.
Proof.
  intros Hinit Hd Hw v c Hv Hc.
  destruct (construction_geometry _ _ _ _ _ _ _ _ _ _ f n Hinit Hd Hw)
    as [_ [_ [_ Hgeo]]].
  destruct (Hgeo v Hv) as [Hb [Hsc _]].
  rewrite Hsc, (Hb c 0%nat Hc), (Hb c 1%nat Hc) by lia.
  cbn [fadd fmul fdiv fsqrt of_Z lit_1_3 Scalar_R map].
  set (l := at2 dimensions0 v 0). set (w := at2 dimensions0 v 1).
  set (s := 0 + l / 2 * (l / 2) + w / 2 * (w / 2)).
  assert (Hs : 0 <= s).
  { unfold s. assert (H1 := Rle_0_sqr (l / 2)). assert (H2 := Rle_0_sqr (w / 2)).
    unfold Rsqr in *. lra. }
  assert (Hq := sqrt_pos s). assert (Hqq := sqrt_sqrt s Hs).
  split; [lra|].
  replace (13 / 10 * sqrt s * (13 / 10 * sqrt s))
    with (169 / 100 * (sqrt s * sqrt s)) by field.
  rewrite Hqq.
  assert (Hcorner :
            nth (c * 2 + 0) [1; 1; 1; -1; -1; -1; -1; 1] dflt * l / 2
            * (nth (c * 2 + 0) [1; 1; 1; -1; -1; -1; -1; 1] dflt * l / 2)
            + nth (c * 2 + 1) [1; 1; 1; -1; -1; -1; -1; 1] dflt * w / 2
              * (nth (c * 2 + 1) [1; 1; 1; -1; -1; -1; -1; 1] dflt * w / 2)
            = s).
  { unfold s. destruct c as [|[|[|[|c]]]]; [| | | |lia];
      cbn [nth Nat.mul Nat.add]; lra. }
  rewrite Hcorner. lra.
Qed.

End RealGeometry.

Section RealDistance.
Import RealModel.
Local Open Scope R_scope.

(** X15: over the reals, the distance that [distance_from_destination]
    returns for a vehicle is never negative, and it is zero for a vehicle
    that is at its destination.  The converse is left out: it rests on
    exact arithmetic. *)
Theorem distance_from_destination_at_destination (f : fleet) (n : nat) :
  shape (position f) = [n; 2%nat] ->
  shape (destination f) = [n; 2%nat] ->
  exists r,
    distance_from_destination f = (Some r, f)
    /\ shape r = [n; 1%nat]
    /\ forall v, (v < n)%nat ->
         0 <= at2 r v 0
         /\ (at2 (position f) v 0 = at2 (destination f) v 0 ->
             at2 (position f) v 1 = at2 (destination f) v 1 ->
             at2 r v 0 = 0).
Proof.
  intros Hp Hd.
  destruct (distance_from_point_rows f (destination f) n Hp Hd)
    as [r [Hrun [Hs Hent]]].
  exists r. split; [exact Hrun|]. split; [exact Hs|].
  intros v Hv. rewrite (Hent v Hv).
  cbn [fadd fsub fmul fsqrt of_Z Scalar_R].
  split; [apply sqrt_pos|].
  intros Ex Ey. rewrite Ex, Ey.
  replace (0 + (at2 (destination f) v 0 - at2 (destination f) v 0)
               * (at2 (destination f) v 0 - at2 (destination f) v 0)
           + (at2 (destination f) v 1 - at2 (destination f) v 1)
             * (at2 (destination f) v 1 - at2 (destination f) v 1))
    with 0 by ring.
  apply sqrt_0.
Qed.

End RealDistance.

(* ================================================================== *)
(** * safety_circle_overlap against a single vehicle *)
(* ================================================================== *)

Section OverlapSingle.
Context {A : Type} `{Scalar A} `{Utils A}.

Lemma gather_all (l : list A) (m : nat) (ix : nat -> nat) :
  length l = m -> (forall k, k < m -> ix k = k) -> gather l m ix = l.
Proof.
  intros Hl Hix. apply (nth_ext _ _ dflt dflt).
  - unfold gather. rewrite length_map, length_seq. lia.
  - intros k Hk. unfold gather in Hk. rewrite length_map, length_seq in Hk.
    rewrite nth_gather by exact Hk. rewrite Hix by exact Hk. reflexivity.
Qed.

(** [t.repeat(1, 1)] is [t]. *)
Lemma repeat_once (t : tensor A) (n w : nat) :
  shape t = [n; w] -> wf t -> repeat [1; 1] t = Some t.
Proof.
  intros Hs Hw. unfold repeat. rewrite Hs. unfold pad_shape, map2.
  cbn -[Nat.mul Nat.div Nat.modulo].
  rewrite !Nat.mul_1_l, !Nat.mul_1_r.
  assert (Hl : length (data t) = n * w).
  { unfold wf in Hw. rewrite Hw, Hs. cbn. lia. }
  rewrite gather_all.
  - destruct t as [s d]. cbn in *. subst. reflexivity.
  - exact Hl.
  - intros k Hk. rewrite Nat.div_1_r.
    destruct (Nat.eq_dec w 0) as [->|Hw0]; [lia|].
    assert (Hq : k / w < n) by (apply Nat.Div0.div_lt_upper_bound; lia).
    rewrite (Nat.mod_small (k / w) n) by exact Hq.
    rewrite Nat.Div0.mod_mod.
    assert (Hdm := Nat.div_mod_eq k w). lia.
Qed.

(** One row tiled [n] times: [t.unsqueeze(0).repeat(n, 1, 1).view(-1, w)]
    for a [t] of one row. *)
Lemma tile_single_row (t : tensor A) (n w : nat) :
  shape t = [1; w] -> 0 < w ->
  match unsqueeze 0 t with
  | Some u => match repeat [n; 1; 1] u with
              | Some r => view [None; Some w] r
              | None => None
              end
  | None => None
  end
  = Some (mkT [n; w] (gather (data t) (n * w) (fun k => k mod w))).
Proof.
  intros Hs Hw. unfold unsqueeze. rewrite Hs. cbn [length Nat.leb firstn
    skipn app]. unfold repeat. cbn [shape length Nat.leb data].
  unfold pad_shape, map2. cbn -[Nat.mul Nat.div Nat.modulo].
  rewrite !Nat.mul_1_l, !Nat.mul_1_r.
  unfold view. cbn -[Nat.mul Nat.div Nat.modulo].
  rewrite ?Nat.mul_1_l, ?Nat.mul_1_r.
  rewrite Nat.Div0.mod_mul, Nat.div_mul by lia.
  destruct w as [|w']; [lia|]. cbn [andb Nat.eqb].
  f_equal. f_equal. unfold gather. apply map_ext. intros k.
  f_equal. rewrite !Nat.mod_1_r, Nat.div_1_r, !Nat.Div0.mod_mod. lia.
Qed.

(** X16: against a fleet of one vehicle, [safety_circle_overlap] hands
    [circle_area_overlap] the centres and radii of the first fleet in
    order, each paired with the centre and radius of that one vehicle,
    and returns the result as an N x 1 matrix. *)
Theorem safety_circle_overlap_against_one (obj1 obj2 : fleet) (n : nat) :
  nbatch obj1 = n -> nbatch obj2 = 1 ->
  shape (position obj1) = [n; 2] -> wf (position obj1) ->
  shape (safety_circle obj1) = [n; 1] -> wf (safety_circle obj1) ->
  shape (position obj2) = [1; 2] ->
  shape (safety_circle obj2) = [1; 1] ->
  safety_circle_overlap obj1 obj2
  = match circle_area_overlap
            (position obj1)
            (mkT [n; 2]
                 (gather (data (position obj2)) (n * 2) (fun k => k mod 2)))
            (safety_circle obj1)
            (mkT [n; 1]
                 (gather (data (safety_circle obj2)) (n * 1)
                         (fun k => k mod 1))) with
    | Some r => view [Some n; Some 1] r
    | None => None
    end.
Proof.
  intros Hn1 Hn2 Hp1 Wp1 Hr1 Wr1 Hp2 Hr2.
  assert (T2 := tile_single_row (position obj2) n 2 Hp2 ltac:(lia)).
  assert (T1 := tile_single_row (safety_circle obj2) n 1 Hr2 ltac:(lia)).
  unfold safety_circle_overlap. rewrite Hn1, Hn2.
  rewrite (repeat_once _ n 2 Hp1 Wp1), (repeat_once _ n 1 Hr1 Wr1).
  destruct (unsqueeze 0 (position obj2)) as [u2|]; [|discriminate].
  destruct (repeat [n; 1; 1] u2) as [r2|]; [|discriminate].
  rewrite T2.
  destruct (unsqueeze 0 (safety_circle obj2)) as [v2|]; [|discriminate].
  destruct (repeat [n; 1; 1] v2) as [w2|]; [|discriminate].
  rewrite T1. reflexivity.
Qed.

(** One row tiled [m] times by [t.repeat(m, 1)]. *)
Lemma repeat_single_row (t : tensor A) (m w : nat) :
  shape t = [1; w] ->
  repeat [m; 1] t
  = Some (mkT [m; w] (gather (data t) (m * w) (fun k => k mod w))).
Proof.
  intros Hs. unfold repeat. rewrite Hs. unfold pad_shape, map2.
  cbn -[Nat.mul Nat.div Nat.modulo].
  rewrite ?Nat.mul_1_l, ?Nat.mul_1_r.
  f_equal. f_equal. unfold gather. apply map_ext. intros k.
  f_equal. rewrite !Nat.mod_1_r, Nat.div_1_r, !Nat.Div0.mod_mod. lia.
Qed.

(** [t.unsqueeze(0).repeat(1, 1, 1).view(-1, w)] is [t]. *)
Lemma untiled_rows (t : tensor A) (m w : nat) :
  shape t = [m; w] -> wf t -> 0 < w ->
  match unsqueeze 0 t with
  | Some u => match repeat [1; 1; 1] u with
              | Some r => view [None; Some w] r
              | None => None
              end
  | None => None
  end
  = Some t.
Proof.
  intros Hs Hwf Hw. unfold unsqueeze. rewrite Hs. cbn [length Nat.leb firstn
    skipn app]. unfold repeat. cbn [shape length Nat.leb data].
  unfold pad_shape, map2. cbn -[Nat.mul Nat.div Nat.modulo].
  rewrite ?Nat.mul_1_l, ?Nat.mul_1_r.
  unfold view. cbn -[Nat.mul Nat.div Nat.modulo].
  rewrite ?Nat.mul_1_l, ?Nat.mul_1_r.
  rewrite Nat.Div0.mod_mul, Nat.div_mul by lia.
  destruct w as [|w']; [lia|]. cbn [andb Nat.eqb].
  assert (Hl : length (data t) = m * S w').
  { unfold wf in Hwf. rewrite Hwf, Hs. cbn. lia. }
  rewrite gather_all.
  - destruct t as [s d]. cbn in *. subst. reflexivity.
  - exact Hl.
  - intros k Hk. rewrite Nat.mod_1_r, Nat.div_1_r.
    rewrite (Nat.mod_small k (m * S w')) by exact Hk.
    assert (Hq : k / S w' < m) by (apply Nat.Div0.div_lt_upper_bound; lia).
    rewrite (Nat.mod_small (k / S w') m) by exact Hq.
    rewrite !Nat.Div0.mod_mod.
    assert (Hdm := Nat.div_mod_eq k (S w')). nia.
Qed.

(** X17: with a first fleet of one vehicle, [safety_circle_overlap]
    pairs the centre and radius of that vehicle with every vehicle of the
    second fleet in order, and returns the result as a 1 x M matrix. *)
Theorem safety_circle_overlap_of_one (obj1 obj2 : fleet) (m : nat) :
  nbatch obj1 = 1 -> nbatch obj2 = m ->
  shape (position obj1) = [1; 2] ->
  shape (safety_circle obj1) = [1; 1] ->
  shape (position obj2) = [m; 2] -> wf (position obj2) ->
  shape (safety_circle obj2) = [m; 1] -> wf (safety_circle obj2) ->
  safety_circle_overlap obj1 obj2
  = match circle_area_overlap
            (mkT [m; 2]
                 (gather (data (position obj1)) (m * 2) (fun k => k mod 2)))
            (position obj2)
            (mkT [m; 1]
                 (gather (data (safety_circle obj1)) (m * 1)
                         (fun k => k mod 1)))
            (safety_circle obj2) with
    | Some r => view [Some 1; Some m] r
    | None => None
    end.
Proof.
  intros Hn1 Hn2 Hp1 Hr1 Hp2 Wp2 Hr2 Wr2.
  assert (T2 := untiled_rows (position obj2) m 2 Hp2 Wp2 ltac:(lia)).
  assert (T1 := untiled_rows (safety_circle obj2) m 1 Hr2 Wr2 ltac:(lia)).
  unfold safety_circle_overlap. rewrite Hn1, Hn2.
  rewrite (repeat_single_row _ m 2 Hp1), (repeat_single_row _ m 1 Hr1).
  destruct (unsqueeze 0 (position obj2)) as [u2|]; [|discriminate].
  destruct (repeat [1; 1; 1] u2) as [r2|]; [|discriminate].
  rewrite T2.
  destruct (unsqueeze 0 (safety_circle obj2)) as [v2|]; [|discriminate].
  destruct (repeat [1; 1; 1] v2) as [w2|]; [|discriminate].
  rewrite T1. reflexivity.
Qed.

End OverlapSingle.

(* ================================================================== *)
(** * Single vehicles and empty fleets *)
(* ================================================================== *)

Section SingleAndEmpty.
Context {A : Type} `{Scalar A} `{Utils A}.

(** What a successful construction stores, whatever the helpers are. *)
Lemma construction_frame
  (position0 orientation0 destination0 dest_orientation0 dimensions0
     initial_speed : tensor A)
  (name0 : list string) (min_lidar max_lidar vision : A) (f : fleet) :
  __init__ position0 orientation0 destination0 dest_orientation0
           dimensions0 initial_speed name0 min_lidar max_lidar vision
  = Some f ->
  size 0 position0 = Some (nbatch f)
  /\ position f = position0
  /\ destination f = destination0
  /\ dimensions f = dimensions0
  /\ speed f = initial_speed
  /\ name f = name0
  /\ not_diag_ones (nbatch f * 4) = Some (diag_bool_buffer f)
  /\ cached_coordinates f = true.
Proof.
  unfold __init__.
  destruct (angle_normalize orientation0) as [o|]; [|discriminate].
  destruct (angle_normalize dest_orientation0) as [d_o|]; [|discriminate].
  destruct (size 0 position0) as [nb|]; [|discriminate].
  rewrite not_diag_ones_entries.
  destruct (reduce fadd (of_Z 0) 1 true _) as [sq|]; [|discriminate].
  destruct (unsqueeze 1 dimensions0) as [du|]; [|discriminate].
  destruct (zip_with fmul mul_factor du) as [prod|]; [|discriminate].
  match goal with
  | |- context [_get_coordinates ?s] =>
      destruct (_get_coordinates s) as [[c|] self'] eqn:E; [|discriminate];
      apply _get_coordinates_leaves_attribute in E; subst self'
  end.
  intros Hf. injection Hf as <-. cbn [nbatch position destination
    dimensions speed name diag_bool_buffer cached_coordinates
    set_coordinates].
  rewrite not_diag_ones_entries.
  repeat split; reflexivity.
Qed.

(** X18: a vehicle built by [_Vehicle] from a position of shape (2,) is
    a fleet of batch size 1: its position is 1 x 2, it carries the one
    name it was given, and its mask is the 4 x 4 complement of the
    identity. *)
Theorem _Vehicle_is_batch_of_one
  (position0 orientation0 destination0 dest_orientation0 dimensions0
     initial_speed : tensor A)
  (name0 : string) (min_lidar max_lidar vision : A) (f : fleet) :
  _Vehicle position0 orientation0 destination0 dest_orientation0
           dimensions0 initial_speed name0 min_lidar max_lidar vision
  = Some f ->
  shape position0 = [2] ->
  nbatch f = 1
  /\ position f = mkT [1; 2] (data position0)
  /\ name f = [name0]
  /\ shape (diag_bool_buffer f) = [4; 4]
  /\ (forall i j, i < 4 -> j < 4 ->
        at2 (diag_bool_buffer f) i j = negb (i =? j))
  /\ cached_coordinates f = true.
Proof.
  intros Hv Hp. revert Hv. unfold _Vehicle, unsqueeze.
  cbn [Nat.leb firstn skipn app]. rewrite Hp. intros Hinit.
  apply construction_frame in Hinit.
  destruct Hinit as [Hn [Hpos [_ [_ [_ [Hname [Hmask Hc]]]]]]].
  cbn in Hn. injection Hn as Hn. rewrite <- Hn in Hmask.
  split; [symmetry; exact Hn|]. split; [exact Hpos|].
  split; [exact Hname|].
  cbn in Hmask. injection Hmask as Hmask. rewrite <- Hmask.
  split; [reflexivity|]. split; [|exact Hc].
  intros i j Hi Hj.
  destruct i as [|[|[|[|i]]]]; [| | | |lia];
    (destruct j as [|[|[|[|j]]]]; [| | | |lia]); reflexivity.
Qed.

(** X19: on a fleet of no vehicle [collision_check] raises: the view of
    the masked matrix as 0 x 4 x -1 cannot infer its last axis. *)
Theorem collision_check_raises_on_empty_fleet (f : fleet) :
  nbatch f = 0 -> fst (collision_check f) = None.
Proof.
  intros Hn. unfold collision_check, bind, lift, read.
  destruct (get_edges f) as [[e|] f1] eqn:E; [|reflexivity].
  apply get_edges_state in E.
  assert (Hn1 : nbatch f1 = 0).
  { rewrite E. destruct (cached_coordinates f); exact Hn. }
  destruct (view [None; Some 2] (fst e)); [|reflexivity].
  destruct (view [None; Some 2] (snd e)); [|reflexivity].
  destruct (check_intersection_lines _ _ _ _); [|reflexivity].
  destruct (zip_with andb _ _); [|reflexivity].
  rewrite Hn1. reflexivity.
Qed.

End SingleAndEmpty.

(* ================================================================== *)
(** * The further properties at concrete fleets *)
(* ================================================================== *)

Section StateAtInput.
Import RealModel Inputs.

Lemma get_state_after_update_state_witness :
  shape (mkT [1; 4] [1; 0; 3; 5]%R) = [1; 4]
  /\ 4 <= 4
  /\ exists f1,
       update_state (mkT [1; 4] [1; 0; 3; 5]%R) parked_car = (Some tt, f1)
       /\ get_state f1 = (Some (mkT [1; 4] [1; 0; 3; 5]%R), f1).
Proof.
  split; [reflexivity|]. split; [lia|].
  destruct (get_state_after_update_state parked_car
              (mkT [1; 4] [1; 0; 3; 5]%R) 1 4 eq_refl ltac:(lia))
    as [f1 [s [Hu [Hg [_ [_ Hs]]]]]].
  exists f1. split; [exact Hu|].
  rewrite <- (Hs eq_refl eq_refl). exact Hg.
Defined.

Lemma update_state_of_get_state_witness :
  shape (position parked_car) = [1; 2] /\ wf (position parked_car)
  /\ shape (speed parked_car) = [1; 1] /\ wf (speed parked_car)
  /\ shape (orientation parked_car) = [1; 1] /\ wf (orientation parked_car)
  /\ exists s,
       get_state parked_car = (Some s, parked_car)
       /\ update_state s parked_car
          = (Some tt, set_cached_coordinates false parked_car).
Proof.
  do 6 (split; [reflexivity|]).
  exact (update_state_of_get_state parked_car 1
           eq_refl eq_refl eq_refl eq_refl eq_refl eq_refl).
Defined.

Lemma get_state_raises_on_row_mismatch_witness :
  shape (position (set_speed (mkT [2; 1] [0; 0]%R) parked_car)) = [1; 2]
  /\ shape (speed (set_speed (mkT [2; 1] [0; 0]%R) parked_car)) = [2; 1]
  /\ 1 <> 2
  /\ get_state (set_speed (mkT [2; 1] [0; 0]%R) parked_car)
     = (None, set_speed (mkT [2; 1] [0; 0]%R) parked_car).
Proof.
  split; [reflexivity|]. split; [reflexivity|]. split; [lia|].
  apply (get_state_raises_on_row_mismatch
           (set_speed (mkT [2; 1] [0; 0]%R) parked_car) 1 2 2 1
           eq_refl eq_refl).
  lia.
Defined.

Lemma update_state_clips_missing_columns_witness :
  shape (mkT [1; 2] [1; 0]%R) = [1; 2]
  /\ exists f',
       update_state (mkT [1; 2] [1; 0]%R) parked_car = (Some tt, f')
       /\ shape (position f') = [1; 2]
       /\ shape (speed f') = [1; 0]
       /\ shape (orientation f') = [1; 0].
Proof.
  split; [reflexivity|].
  destruct (update_state_clips_missing_columns parked_car
              (mkT [1; 2] [1; 0]%R) 1 2 eq_refl)
    as [f' [Hu [Hp [Hs [Ho _]]]]].
  exists f'. repeat split; assumption.
Defined.

Lemma update_state_raises_untouched_witness :
  length (shape (mkT [4] [1; 0; 3; 5]%R)) < 2
  /\ update_state (mkT [4] [1; 0; 3; 5]%R) parked_car = (None, parked_car).
Proof.
  split; [simpl; lia|].
  apply (update_state_raises_untouched parked_car (mkT [4] [1; 0; 3; 5]%R)).
  simpl; lia.
Defined.

Lemma get_coordinates_after_failed_recomputation_witness :
  get_coordinates
    (set_cached_coordinates false
       (set_orientation (mkT [1; 0] ([] : list R)) parked_car))
  = (None, set_orientation (mkT [1; 0] ([] : list R)) parked_car)
  /\ get_coordinates (set_orientation (mkT [1; 0] ([] : list R)) parked_car)
     = (Some (coordinates parked_car),
        set_orientation (mkT [1; 0] ([] : list R)) parked_car).
Proof.
  set (f := set_cached_coordinates false
              (set_orientation (mkT [1; 0] ([] : list R)) parked_car)).
  change (get_coordinates f = (None, set_cached_coordinates true f)
          /\ get_coordinates (set_cached_coordinates true f)
             = (Some (coordinates f), set_cached_coordinates true f)).
  assert (Hfail : get_coordinates f = (None, set_cached_coordinates true f))
    by reflexivity.
  split; [exact Hfail|].
  exact (proj2 (proj2 (get_coordinates_after_failed_recomputation
                         f (set_cached_coordinates true f) Hfail))).
Defined.

End StateAtInput.

Section DistanceAtInput.
Import RealModel Inputs.

Lemma distance_from_point_per_vehicle_witness :
  shape (position parked_car) = [1; 2]
  /\ shape (mkT [1; 2] [3; 4]%R) = [1; 2]
  /\ exists r,
       distance_from_point (mkT [1; 2] [3; 4]%R) parked_car
       = (Some r, parked_car)
       /\ shape r = [1; 1].
Proof.
  split; [reflexivity|]. split; [reflexivity|].
  destruct (distance_from_point_per_vehicle parked_car
              (mkT [1; 2] [3; 4]%R) 1 eq_refl eq_refl)
    as [r [Hr [Hs _]]].
  exists r. split; assumption.
Defined.

Lemma distance_from_point_broadcast_witness :
  shape (position two_cars) = [2; 2]
  /\ shape (mkT [2] [3; 4]%R) = [2]
  /\ exists r,
       distance_from_point (mkT [2] [3; 4]%R) two_cars = (Some r, two_cars)
       /\ shape r = [2; 1].
Proof.
  split; [reflexivity|]. split; [reflexivity|].
  destruct (distance_from_point_broadcast two_cars
              (mkT [2] [3; 4]%R) 2 eq_refl eq_refl)
    as [r [Hr [Hs _]]].
  exists r. split; assumption.
Defined.

Lemma optimal_heading_to_point_raises_witness :
  shape (position two_cars) = [2; 2]
  /\ shape (destination two_cars) = [2; 2]
  /\ shape (orientation two_cars) = [2; 1]
  /\ 2 <> 1
  /\ optimal_heading_to_point (destination two_cars) two_cars
     = (None, two_cars).
Proof.
  do 3 (split; [reflexivity|]). split; [lia|].
  apply (optimal_heading_to_point_raises two_cars (destination two_cars) 2
           eq_refl eq_refl eq_refl).
  lia.
Defined.

Lemma distance_from_destination_at_destination_witness :
  shape (position (set_position (mkT [1; 2] [10; 0]%R) parked_car)) = [1; 2]
  /\ shape (destination (set_position (mkT [1; 2] [10; 0]%R) parked_car))
     = [1; 2]
  /\ exists r,
       distance_from_destination
         (set_position (mkT [1; 2] [10; 0]%R) parked_car)
       = (Some r, set_position (mkT [1; 2] [10; 0]%R) parked_car)
       /\ shape r = [1; 1]
       /\ at2 r 0 0 = 0%R.
Proof.
  split; [reflexivity|]. split; [reflexivity|].
  destruct (distance_from_destination_at_destination
              (set_position (mkT [1; 2] [10; 0]%R) parked_car) 1
              eq_refl eq_refl)
    as [r [Hr [Hs Hv]]].
  exists r. split; [exact Hr|]. split; [exact Hs|].
  exact (proj2 (Hv 0 ltac:(lia)) eq_refl eq_refl).
Defined.

End DistanceAtInput.

Section ConstructionAtInput.
Import RealModel Inputs.
Local Open Scope R_scope.

Lemma construction_raises_on_missing_axes_witness :
  (shape (mkT [] [0]) = [] \/ (length (shape (mkT [1; 2]%nat [4; 2])) < 2)%nat)
  /\ __init__ (mkT [] [0]) (mkT [1; 1]%nat [0])
              (mkT [1; 2]%nat [10; 0]) (mkT [1; 1]%nat [0])
              (mkT [1; 2]%nat [4; 2]) (mkT [1; 1]%nat [0])
              ["car"%string] (5 / 2) 50 50
     = None.
Proof.
  split; [left; reflexivity|].
  apply construction_raises_on_missing_axes. left. reflexivity.
Defined.

Lemma constructed_rectangle_and_safety_circle_witness :
  parked_car_built = Some parked_car
  /\ shape (mkT [1; 2]%nat [4; 2]) = [1; 2]%nat
  /\ wf (mkT [1; 2]%nat [4; 2])
  /\ (0 < 1)%nat
  /\ at3 (base_coordinates parked_car) 0 0 0
     = at2 (mkT [1; 2]%nat [4; 2]) 0 0 / 2
  /\ at2 (safety_circle parked_car) 0 0
     = 13 / 10 * sqrt (at2 (mkT [1; 2]%nat [4; 2]) 0 0 / 2
                       * (at2 (mkT [1; 2]%nat [4; 2]) 0 0 / 2)
                       + at2 (mkT [1; 2]%nat [4; 2]) 0 1 / 2
                         * (at2 (mkT [1; 2]%nat [4; 2]) 0 1 / 2)).
Proof.
  split; [exact parked_car_constructed|].
  split; [reflexivity|]. split; [reflexivity|]. split; [lia|].
  destruct (constructed_rectangle_and_safety_circle Utils_R
              _ _ _ _ _ _ _ _ _ _ parked_car 1%nat
              parked_car_constructed eq_refl eq_refl 0%nat ltac:(lia))
    as [H00 [_ [_ [_ [_ [_ [_ [_ [Hr _]]]]]]]]].
  split; [exact H00 | exact Hr].
Defined.

Lemma base_corners_inside_safety_circle_witness :
  parked_car_built = Some parked_car
  /\ shape (mkT [1; 2]%nat [4; 2]) = [1; 2]%nat
  /\ wf (mkT [1; 2]%nat [4; 2])
  /\ (0 < 1)%nat /\ (2 < 4)%nat
  /\ 0 <= at2 (safety_circle parked_car) 0 0
  /\ at3 (base_coordinates parked_car) 0 2 0
     * at3 (base_coordinates parked_car) 0 2 0
     + at3 (base_coordinates parked_car) 0 2 1
       * at3 (base_coordinates parked_car) 0 2 1
     <= at2 (safety_circle parked_car) 0 0
        * at2 (safety_circle parked_car) 0 0.
Proof.
  split; [exact parked_car_constructed|].
  split; [reflexivity|]. split; [reflexivity|].
  split; [lia|]. split; [lia|].
  exact (base_corners_inside_safety_circle Utils_R
           _ _ _ _ _ _ _ _ _ _ parked_car 1%nat
           parked_car_constructed eq_refl eq_refl 0%nat 2%nat
           ltac:(lia) ltac:(lia)).
Defined.

Lemma _Vehicle_is_batch_of_one_witness :
  _Vehicle (mkT [2]%nat [0; 0]) (mkT [1]%nat [0])
           (mkT [2]%nat [10; 0]) (mkT [1]%nat [0])
           (mkT [2]%nat [4; 2]) (mkT [1]%nat [0])
           "car"%string (5 / 2) 50 50
  = Some parked_car
  /\ shape (mkT [2]%nat [0; 0]) = [2]%nat
  /\ nbatch parked_car = 1%nat
  /\ name parked_car = ["car"%string].
Proof.
  assert (Hbuilt : _Vehicle (mkT [2]%nat [0; 0]) (mkT [1]%nat [0])
                     (mkT [2]%nat [10; 0]) (mkT [1]%nat [0])
                     (mkT [2]%nat [4; 2]) (mkT [1]%nat [0])
                     "car"%string (5 / 2) 50 50
                   = Some parked_car)
    by exact parked_car_constructed.
  split; [exact Hbuilt|]. split; [reflexivity|].
  destruct (_Vehicle_is_batch_of_one _ _ _ _ _ _ _ _ _ _ parked_car
              Hbuilt eq_refl)
    as [Hn [_ [Hname _]]].
  split; assumption.
Defined.

End ConstructionAtInput.

Section OverlapSingleAtInput.
Import RealModel Inputs.

Lemma safety_circle_overlap_against_one_witness :
  nbatch two_cars = 2 /\ nbatch parked_car = 1
  /\ shape (position two_cars) = [2; 2] /\ wf (position two_cars)
  /\ shape (safety_circle two_cars) = [2; 1] /\ wf (safety_circle two_cars)
  /\ shape (position parked_car) = [1; 2]
  /\ shape (safety_circle parked_car) = [1; 1]
  /\ safety_circle_overlap two_cars parked_car
     = match circle_area_overlap
               (position two_cars)
               (mkT [2; 2]
                    (gather (data (position parked_car)) (2 * 2)
                            (fun k => k mod 2)))
               (safety_circle two_cars)
               (mkT [2; 1]
                    (gather (data (safety_circle parked_car)) (2 * 1)
                            (fun k => k mod 1))) with
       | Some r => view [Some 2; Some 1] r
       | None => None
       end.
Proof.
  do 8 (split; [reflexivity|]).
  exact (safety_circle_overlap_against_one two_cars parked_car 2
           eq_refl eq_refl eq_refl eq_refl eq_refl eq_refl eq_refl eq_refl).
Defined.

Lemma safety_circle_overlap_of_one_witness :
  nbatch parked_car = 1 /\ nbatch two_cars = 2
  /\ shape (position parked_car) = [1; 2]
  /\ shape (safety_circle parked_car) = [1; 1]
  /\ shape (position two_cars) = [2; 2] /\ wf (position two_cars)
  /\ shape (safety_circle two_cars) = [2; 1] /\ wf (safety_circle two_cars)
  /\ safety_circle_overlap parked_car two_cars
     = match circle_area_overlap
               (mkT [2; 2]
                    (gather (data (position parked_car)) (2 * 2)
                            (fun k => k mod 2)))
               (position two_cars)
               (mkT [2; 1]
                    (gather (data (safety_circle parked_car)) (2 * 1)
                            (fun k => k mod 1)))
               (safety_circle two_cars) with
       | Some r => view [Some 1; Some 2] r
       | None => None
       end.
Proof.
  do 8 (split; [reflexivity|]).
  exact (safety_circle_overlap_of_one parked_car two_cars 2
           eq_refl eq_refl eq_refl eq_refl eq_refl eq_refl eq_refl eq_refl).
Defined.

Lemma collision_check_raises_on_empty_fleet_witness :
  nbatch
    (mkFleet [] (mkT [0; 2] []) (mkT [0; 1] []) (mkT [0; 2] [])
        (mkT [0; 1] []) (mkT [0; 2] []) 0 (mkT [0; 0] [])
        (mkT [0; 1] []) (mkT [0; 1] []) (mkT [0; 1] [])
        (mkT [0; 4; 2] []) true (mkT [0; 4; 2] ([] : list R))
        50%R (5 / 2)%R 50%R) = 0
  /\ fst (collision_check
     (mkFleet [] (mkT [0; 2] []) (mkT [0; 1] []) (mkT [0; 2] [])
        (mkT [0; 1] []) (mkT [0; 2] []) 0 (mkT [0; 0] [])
        (mkT [0; 1] []) (mkT [0; 1] []) (mkT [0; 1] [])
        (mkT [0; 4; 2] []) true (mkT [0; 4; 2] ([] : list R))
        50%R (5 / 2)%R 50%R))
     = None.
Proof.
  split; [reflexivity|].
  apply collision_check_raises_on_empty_fleet. reflexivity.
Defined.

End OverlapSingleAtInput.
